(** * A shallow embedding of [schema.py]

    The program is a small record engine: typed fields ([StringType],
    [IntType]), a [Schema] that maps field names to fields, a [Deserializer]
    that splits a line into tokens, a [Datastore] that appends records and a
    [Program] that offers the commands [set_schema], [add] and [get].

    Python objects are embedded as follows.
    - A [str] is a [string]: one [ascii] per code point, so the strings of
      this development are the Python strings whose code points are below 256.
    - An [int] is a [Z].
    - A raised exception is the [Raise] case of [result]; a function that
      mutates [self] returns the new [self].
    - An ordered [dict] with [str] keys is an association list in insertion
      order, without duplicate keys.
    - An f-string message is kept as the list of its literal and formatted
      parts. *)

From Stdlib Require Import ZArith List String Ascii Bool Lia.
Import ListNotations.

Local Open Scope string_scope.
Local Open Scope Z_scope.

(** ** Python values *)

(** A binary floating point number: not-a-number, an infinity, or
    [(-1)^neg * mant * 2^exp]. *)
Inductive pyfloat : Set :=
| FNan
| FInf (neg : bool)
| FFin (neg : bool) (mant : N) (exp : Z).

(** The class of a field object, with the attribute the class adds to
    those of [Type]. *)
Inductive kind : Set :=
| KString (max_len : Z)
| KInt.

(** Python objects ([Any] in the source): the builtin scalars, an object
    [VObj] of any other class (one that derives neither from [str] nor from
    [int]), and a [dict] from field names to field objects or [None].
    A field object has the attributes [name] and [value] of [Type]. *)
Inductive pyval : Set :=
| VNone
| VBool (b : bool)
| VInt (z : Z)
| VFloat (f : pyfloat)
| VStr (s : string)
| VObj (class_name : string) (id : nat)
| VDict (d : list (string * option Type_))
with Type_ : Set :=
| mkType (name : string) (value : pyval) (cls : kind).

Definition name (self : Type_) : string :=
  match self with mkType n _ _ => n end.

Definition value (self : Type_) : pyval :=
  match self with mkType _ v _ => v end.

Definition cls (self : Type_) : kind :=
  match self with mkType _ _ c => c end.

(** [type(v).__name__] *)
Definition type_name (v : pyval) : string :=
  match v with
  | VNone => "NoneType"
  | VBool _ => "bool"
  | VInt _ => "int"
  | VFloat _ => "float"
  | VStr _ => "str"
  | VObj c _ => c
  | VDict _ => "dict"
  end.

(** [isinstance(v, str)] and [isinstance(v, int)]; [bool] is a subclass of
    [int]. *)
Definition isinstance_str (v : pyval) : bool :=
  match v with VStr _ => true | _ => false end.

Definition isinstance_int (v : pyval) : bool :=
  match v with VInt _ | VBool _ => true | _ => false end.

(** ** Exceptions and results *)

Inductive fpart : Set :=
| Lit (s : string)
| Fmt (v : pyval).

Definition fstring : Set := list fpart.

Inductive exn : Set :=
| AssertionError (msg : fstring)
| AttributeError (msg : fstring)
| IndexError
| ValueError
| TypeError
| OverflowError
| KeyError (key : string).

Inductive result (A : Type) : Type :=
| Ok (a : A)
| Raise (e : exn).

Arguments Ok {A} a.
Arguments Raise {A} e.

Definition bind {A B : Type} (r : result A) (k : A -> result B) : result B :=
  match r with
  | Ok a => k a
  | Raise e => Raise e
  end.

Notation "x <- r ;; k" := (bind r (fun x => k))
  (at level 61, r at next level, right associativity).

(** [assert cond, msg] *)
Definition py_assert (cond : bool) (msg : fstring) : result unit :=
  if cond then Ok tt else Raise (AssertionError msg).

(** ** Strings *)

Definition code (c : ascii) : Z := Z.of_nat (nat_of_ascii c).

Definition len (s : string) : Z := Z.of_nat (String.length s).

Definition quote : ascii := "'"%char.

(** [s.startswith(p)] *)
Definition startswith (p s : string) : bool := String.prefix p s.

(** [s.endswith(p)] *)
Definition endswith (p s : string) : bool :=
  let n := String.length s in
  let m := String.length p in
  (m <=? n)%nat && String.eqb (String.substring (n - m) m s) p.

(** [c.isdigit()] for one character.  Python accepts the characters whose
    Unicode numeric type is Decimal or Digit; below 256 these are the ten
    decimal digits and the superscripts two, three and one (U+00B2, U+00B3,
    U+00B9). *)
Definition isdecimal_char (c : ascii) : bool :=
  (48 <=? code c) && (code c <=? 57).

Definition isdigit_char (c : ascii) : bool :=
  isdecimal_char c
  || (code c =? 178) || (code c =? 179) || (code c =? 185).

Fixpoint forall_chars (p : ascii -> bool) (s : string) : bool :=
  match s with
  | EmptyString => true
  | String c s' => p c && forall_chars p s'
  end.

(** [s.isdigit()]: every character is a digit and there is at least one. *)
Definition isdigit (s : string) : bool :=
  match s with
  | EmptyString => false
  | _ => forall_chars isdigit_char s
  end.

(** [s.split(sep)] for a separator of one character: the pieces between
    the occurrences of [sep]; a string without [sep] is its own only piece. *)
Fixpoint split (sep : ascii) (s : string) : list string :=
  match s with
  | EmptyString => [EmptyString]
  | String c s' =>
      if Ascii.eqb c sep then EmptyString :: split sep s'
      else match split sep s' with
           | [] => [String c EmptyString]
           | p :: ps => String c p :: ps
           end
  end.

(** [a in b] for two strings: [a] occurs in [b] as a substring. *)
Fixpoint str_contains (b a : string) : bool :=
  String.prefix a b
  || match b with
     | EmptyString => false
     | String _ b' => str_contains b' a
     end.

(** ** [int(x)] *)

(** [int] on a text reads optional white space, an optional sign, decimal
    digits with single underscores between them, and optional white space.
    The limit of the interpreter on the number of digits is left out.

    The characters [int] skips around the number: the ASCII white space
    and, below 256, the two other white-space characters U+0085 and
    U+00A0. *)
Definition int_space (c : ascii) : bool :=
  ((9 <=? code c) && (code c <=? 13))
  || (code c =? 32) || (code c =? 133) || (code c =? 160).

Fixpoint skip_space (s : string) : string :=
  match s with
  | String c s' => if int_space c then skip_space s' else s
  | EmptyString => EmptyString
  end.

(** What the scanner of a decimal literal read last. *)
Inductive scanned : Set := Nothing | Digit | Underscore.

(** Decimal digits with single underscores between them; the result is
    the number read and the text after it. *)
Fixpoint scan_digits (acc : Z) (prev : scanned) (s : string)
  : option (Z * string) :=
  let finish := match prev with Digit => Some (acc, s) | _ => None end in
  match s with
  | EmptyString => finish
  | String c s' =>
      if isdecimal_char c then scan_digits (10 * acc + (code c - 48)) Digit s'
      else if Ascii.eqb c "_"%char then
        match prev with
        | Digit => scan_digits acc Underscore s'
        | _ => None
        end
      else finish
  end.

Definition int_of_str (s : string) : result Z :=
  let s1 := skip_space s in
  let (neg, s2) :=
    match s1 with
    | String "-"%char r => (true, r)
    | String "+"%char r => (false, r)
    | _ => (false, s1)
    end in
  match scan_digits 0 Nothing s2 with
  | Some (n, rest) =>
      match skip_space rest with
      | EmptyString => Ok (if neg then - n else n)
      | _ => Raise ValueError
      end
  | None => Raise ValueError
  end.

(** [int] on a float drops the fraction. *)
Definition int_of_float (f : pyfloat) : result Z :=
  match f with
  | FNan => Raise ValueError
  | FInf _ => Raise OverflowError
  | FFin neg m e =>
      let mag := if 0 <=? e then Z.of_N m * 2 ^ e else Z.of_N m / 2 ^ (- e) in
      Ok (if neg then - mag else mag)
  end.

(** [int(v)]; an object of another class is taken to have no conversion. *)
Definition py_int (v : pyval) : result Z :=
  match v with
  | VInt z => Ok z
  | VBool b => Ok (if b then 1 else 0)
  | VFloat f => int_of_float f
  | VStr s => int_of_str s
  | VNone | VObj _ _ | VDict _ => Raise TypeError
  end.

(** ** Field types: [Type], [StringType], [IntType] *)

(** [StringType(name, max_len)] and [IntType(name)]: the value starts as
    [None]. *)
Definition StringType (nm : string) (max_len : Z) : Type_ :=
  mkType nm VNone (KString max_len).

Definition IntType (nm : string) : Type_ :=
  mkType nm VNone KInt.

(** [set_value]: the value is stored as it is given. *)
Definition set_value (self : Type_) (v : pyval) : Type_ :=
  mkType (name self) v (cls self).

Definition field_msg (text : string) (self : Type_) : fstring :=
  [Lit text; Fmt (VStr (name self)); Lit ": "; Fmt (value self)].

(** The text of a value that is known to be a [str]. *)
Definition str_of (v : pyval) : string :=
  match v with VStr s => s | _ => EmptyString end.

Definition StringType_validate (max_len : Z) (self : Type_) : result unit :=
  _ <- py_assert (isinstance_str (value self))
         (field_msg "Value must be a string - " self) ;;
  _ <- py_assert (len (str_of (value self)) <=? max_len)
         (field_msg "String exceeds max length- " self) ;;
  py_assert (startswith "'" (str_of (value self))
             && endswith "'" (str_of (value self)))
    (field_msg
       "String must be enclosed in single quotes (e.g., 'value') - " self).

Definition IntType_validate (self : Type_) : result unit :=
  match value self with
  | VStr s =>
      py_assert (isdigit s) (field_msg "Value must be an integer - " self)
  | v =>
      py_assert (isinstance_int v)
        (field_msg "Value must be an integer - " self)
  end.

(** [field.validate()]: the method of the field's class.  The class [Type]
    itself is abstract, its [validate] only raises, and the program makes
    no object of it. *)
Definition validate (self : Type_) : result unit :=
  match cls self with
  | KString max_len => StringType_validate max_len self
  | KInt => IntType_validate self
  end.

(** ** Containers *)

(** An ordered [dict] with [str] keys. *)
Definition dict (A : Type) : Type := list (string * A).

(** [d.get(k)], and [k in d] *)
Fixpoint dict_get {A : Type} (d : dict A) (k : string) : option A :=
  match d with
  | [] => None
  | (k', a) :: d' => if String.eqb k' k then Some a else dict_get d' k
  end.

Definition dict_contains {A : Type} (d : dict A) (k : string) : bool :=
  match dict_get d k with Some _ => true | None => false end.

(** [d[k] = a]: an existing key keeps its place, a new key goes last. *)
Fixpoint dict_set {A : Type} (d : dict A) (k : string) (a : A) : dict A :=
  match d with
  | [] => [(k, a)]
  | (k', a') :: d' =>
      if String.eqb k' k then (k', a) :: d' else (k', a') :: dict_set d' k a
  end.

(** [l[i]] for a list: a negative index counts from the end. *)
Definition list_getitem {A : Type} (l : list A) (i : Z) : result A :=
  let n := Z.of_nat (List.length l) in
  let j := if i <? 0 then i + n else i in
  if (j <? 0) || (n <=? j) then Raise IndexError
  else match nth_error l (Z.to_nat j) with
       | Some a => Ok a
       | None => Raise IndexError
       end.

(** The exception of an attribute that the class of [v] does not have. *)
Definition no_attribute (v : pyval) (attr : string) : exn :=
  AttributeError
    [Lit ("'" ++ type_name v ++ "' object has no attribute '" ++ attr ++ "'")].

(** [len(v)], [key in v], [v.items()] and [v[key]] for an object [v] that
    the source expects to be the [dict] of the fields. *)
Definition py_len (v : pyval) : result Z :=
  match v with
  | VStr s => Ok (len s)
  | VDict d => Ok (Z.of_nat (List.length d))
  | _ => Raise TypeError
  end.

Definition py_contains (v : pyval) (key : string) : result bool :=
  match v with
  | VStr s => Ok (str_contains s key)
  | VDict d => Ok (dict_contains d key)
  | _ => Raise TypeError
  end.

Definition py_items (v : pyval) : result (dict (option Type_)) :=
  match v with
  | VDict d => Ok d
  | _ => Raise (no_attribute v "items")
  end.

Definition py_getitem (v : pyval) (key : string) : result (option Type_) :=
  match v with
  | VDict d =>
      match dict_get d key with
      | Some f => Ok f
      | None => Raise (KeyError key)
      end
  | _ => Raise TypeError
  end.

(** ** [Schema] *)

(** A schema object: its instance attribute [fields], and the other
    instance attributes it has been given. *)
Record Schema : Set := mkSchema {
  fields : pyval;
  attrs : list (string * pyval)
}.

(** [object.__setattr__(self, key, value)]: plain instance state. *)
Definition object_setattr (self : Schema) (key : string) (v : pyval) : Schema :=
  if String.eqb key "fields" then {| fields := v; attrs := attrs self |}
  else {| fields := fields self; attrs := dict_set (attrs self) key v |}.

(** The instance state under a name, if there is any. *)
Definition instance_attr (self : Schema) (key : string) : option pyval :=
  if String.eqb key "fields" then Some (fields self)
  else dict_get (attrs self) key.

(** [field.set_value(v)] and [field.validate()] on an entry of the fields,
    which is a field object or [None]. *)
Definition entry_set_value (f : option Type_) (v : pyval) : result Type_ :=
  match f with
  | Some t => Ok (set_value t v)
  | None => Raise (no_attribute VNone "set_value")
  end.

Definition entry_validate (f : option Type_) : result unit :=
  match f with
  | Some t => validate t
  | None => Raise (no_attribute VNone "validate")
  end.

(** [Schema.validate]: the fields in the order of the [dict], up to the
    first failure. *)
Fixpoint validate_fields (d : dict (option Type_)) : result unit :=
  match d with
  | [] => Ok tt
  | (_, f) :: d' => _ <- entry_validate f ;; validate_fields d'
  end.

Definition Schema_validate (self : Schema) : result unit :=
  d <- py_items (fields self) ;; validate_fields d.

Definition build (self : Schema) : result Schema :=
  _ <- Schema_validate self ;; Ok self.

(** The loop of [set_values] over [zip(self.fields.items(), values)]: the
    fields as they are when the loop ends or raises, and how it ended. *)
Fixpoint assign (d : dict (option Type_)) (values : list pyval)
  : dict (option Type_) * result unit :=
  match d, values with
  | (k, f) :: d', v :: values' =>
      match entry_set_value f v with
      | Ok t => let (d'', r) := assign d' values' in ((k, Some t) :: d'', r)
      | Raise e => (d, Raise e)
      end
  | _, _ => (d, Ok tt)
  end.

(** [if values:] for a list or [None] *)
Definition truthy_list {A : Type} (l : option (list A)) : bool :=
  match l with
  | Some (_ :: _) => true
  | _ => false
  end.

(** [set_values] mutates the fields in place: the result is the schema
    after the call and whether the call returned or raised. *)
Definition set_values (self : Schema) (values : option (list pyval))
  : Schema * result unit :=
  if truthy_list values then
    match py_items (fields self) with
    | Raise e => (self, Raise e)
    | Ok d =>
        let l := match values with Some l => l | None => [] end in
        let (d', r) := assign d l in
        let self' := {| fields := VDict d'; attrs := attrs self |} in
        (self', _ <- r ;; _ <- build self' ;; Ok tt)
    end
  else (self, Ok tt).

(** [Schema(fields)]: [self.fields = fields] goes through [__setattr__],
    which stores it as instance state. *)
Definition Schema_init (fields0 : pyval) : Schema :=
  {| fields := fields0; attrs := [] |}.

(** [__getattr__], which Python calls for a name that is found neither in
    the instance state nor on the class. *)
Definition Schema_getattr (self : Schema) (key : string) : result pyval :=
  b <- py_contains (fields self) key ;;
  if b : bool then
    f <- py_getitem (fields self) key ;;
    match f with
    | Some t => Ok (value t)
    | None => Raise (no_attribute VNone "value")
    end
  else Raise (AttributeError [Fmt (VStr key); Lit " not found"]).

(** The fields after the field object under [key] has become [t]. *)
Definition with_entry (v : pyval) (key : string) (t : Type_) : pyval :=
  match v with
  | VDict d => VDict (dict_set d key (Some t))
  | _ => v
  end.

(** [__setattr__].  In the source the first test is [key in ("fields")],
    where [("fields")] is the string ["fields"]: the test holds for every
    substring of it. *)
Definition Schema_setattr (self : Schema) (key : string) (v : pyval)
  : result Schema :=
  if str_contains "fields" key then Ok (object_setattr self key v)
  else
    b <- py_contains (fields self) key ;;
    if b : bool then
      f <- py_getitem (fields self) key ;;
      t <- entry_set_value f v ;;
      Ok {| fields := with_entry (fields self) key t; attrs := attrs self |}
    else Ok (object_setattr self key v).

(** What a read gives: an object, or an attribute of the class. *)
Inductive attribute : Set :=
| Object (v : pyval)
| ClassAttribute (key : string).

(** Reading [self.key].  Python looks in the instance state, then on the
    class, and calls [__getattr__] when both fail.  The class [Schema]
    defines the names below; [inherited] tells the names it inherits from
    [object]. *)
Definition Schema_class_names : list string :=
  ["__init__"; "set_values"; "validate"; "build"; "__getattr__";
   "__setattr__"; "__call__"; "fieldlen"; "__repr__"; "__str__"].

Section Reading.

Variable inherited : string -> bool.

Definition on_class (key : string) : bool :=
  existsb (String.eqb key) Schema_class_names || inherited key.

Definition read_attr (self : Schema) (key : string) : result attribute :=
  match instance_attr self key with
  | Some v => Ok (Object v)
  | None =>
      if on_class key then Ok (ClassAttribute key)
      else v <- Schema_getattr self key ;; Ok (Object v)
  end.

End Reading.

Definition fieldlen (self : Schema) : result Z := py_len (fields self).

(** ** [Datastore] *)

Record Datastore : Set := mkDatastore {
  store : list Schema
}.

Definition Datastore_init : Datastore := {| store := [] |}.

(** [save]: the store after the call, and the pair it returns. *)
Definition save (self : Datastore) (data : Schema)
  : Datastore * (Z * Schema) :=
  let store' := (store self ++ [data])%list in
  ({| store := store' |}, (Z.of_nat (List.length store') - 1, data)).

Definition load (self : Datastore) (index : Z) : result (option Schema) :=
  if index >? Z.of_nat (List.length (store self)) - 1 then Ok None
  else r <- list_getitem (store self) index ;; Ok (Some r).

Definition clear (self : Datastore) : Datastore := {| store := [] |}.

(** ** [Deserializer] *)

(** [deserialize] mutates the schema and returns it: the result is the
    schema after the call and whether the call returned or raised. *)
Definition deserialize (schema : Schema) (data : string)
  : Schema * result unit :=
  let values := split " " data in
  let n := Z.of_nat (List.length values) in
  match fieldlen schema with
  | Raise e => (schema, Raise e)
  | Ok m =>
      if n =? m then set_values schema (Some (map VStr values))
      else
        (schema,
         Raise (AssertionError
                  [Lit "Incorrect number of fields. Expected "; Fmt (VInt m);
                   Lit ", Actual "; Fmt (VInt n)]))
  end.

(** ** [Program] *)

Record Program : Set := mkProgram {
  datastore : Datastore;
  current_schema : option string
}.

Definition Program_init : Program :=
  {| datastore := Datastore_init; current_schema := None |}.

(** The two classes [key2type] can return. *)
Inductive field_class : Set := StringType_class | IntType_class.

Definition key2type (key : string) : option field_class :=
  if String.eqb key "string" then Some StringType_class
  else if String.eqb key "int" then Some IntType_class
  else None.

Definition unpack_type (details : list string) : result (option Type_) :=
  fieldname <- list_getitem details 0 ;;
  key <- list_getitem details 1 ;;
  match key2type key with
  | Some StringType_class =>
      param <- list_getitem details 2 ;;
      max_len <- py_int (VStr param) ;;
      Ok (Some (StringType fieldname max_len))
  | Some IntType_class => Ok (Some (IntType fieldname))
  | None => Ok None
  end.

Definition set_schema (self : Program) (schema_template : string) : Program :=
  {| datastore := clear (datastore self);
     current_schema := Some schema_template |}.

(** The loop of [create_schema_instance] over the field specs. *)
Fixpoint collect_fields (types : list string) (acc : dict (option Type_))
  : result (dict (option Type_)) :=
  match types with
  | [] => Ok acc
  | t :: types' =>
      let type_props := split "|" t in
      fieldname <- list_getitem type_props 0 ;;
      typz <- unpack_type type_props ;;
      collect_fields types' (dict_set acc fieldname typz)
  end.

Definition create_schema_instance (schema_template : string) : result Schema :=
  d <- collect_fields (split " " schema_template) [] ;;
  Ok (Schema_init (VDict d)).

(** What a command returns: [None], the pair of [save], or a record. *)
Inductive retval : Set :=
| RNone
| RSaved (index : Z) (record : Schema)
| RRecord (record : Schema).

(** [if not self.current_schema]: [None] and the empty string are false. *)
Definition no_schema (s : option string) : bool :=
  match s with
  | None | Some EmptyString => true
  | Some _ => false
  end.

(** A call on the program: the program after it, the lines it printed,
    and what it returned or raised. *)
Definition effect : Set := Program * list string * result retval.

Definition add (self : Program) (data : string) : effect :=
  if no_schema (current_schema self) then
    (self, ["No schema defined"], Ok RNone)
  else
    let template :=
      match current_schema self with Some t => t | None => EmptyString end in
    match create_schema_instance template with
    | Raise e => (self, [], Raise e)
    | Ok schema_instance =>
        match deserialize schema_instance data with
        | (_, Raise e) => (self, [], Raise e)
        | (record, Ok _) =>
            let (ds, saved) := save (datastore self) record in
            ({| datastore := ds; current_schema := current_schema self |},
             [], Ok (RSaved (fst saved) (snd saved)))
        end
    end.

Definition get (self : Program) (index : pyval) : effect :=
  (self, [],
   i <- py_int index ;;
   r <- load (datastore self) i ;;
   Ok (match r with Some rec => RRecord rec | None => RNone end)).

(** ** The command loop *)

(** The loop of [run] takes the first word of a line as the name of a
    method and calls it on the text after the word; it reports an exception
    and goes on with the program as the call left it.  The commands are the
    three methods that the program offers to its user. *)
Inductive command : Set :=
| Cset_schema (arg : string)
| Cadd (arg : string)
| Cget (arg : string).

Definition call (self : Program) (c : command) : effect :=
  match c with
  | Cset_schema arg => (set_schema self arg, [], Ok RNone)
  | Cadd arg => add self arg
  | Cget arg => get self (VStr arg)
  end.

Fixpoint run (self : Program) (cs : list command)
  : Program * list (result retval) :=
  match cs with
  | [] => (self, [])
  | c :: cs' =>
      let '(self', _, r) := call self c in
      let (self'', rs) := run self' cs' in
      (self'', r :: rs)
  end.

(** ** The statements of the specification *)



(** The fields after the values have been given to them by position:
    the field at place [i] takes the value at place [i], a field beyond the
    values keeps what it has, a value beyond the fields is dropped. *)
Definition positional (d : dict (option Type_)) (values : list pyval)
  : dict (option Type_) :=
  (map (fun p : (string * option Type_) * pyval =>
          (fst (fst p),
           option_map (fun t => set_value t (snd p)) (snd (fst p))))
       (combine d values)
   ++ skipn (List.length values) d)%list.


(** Every entry of the fields is a field object. *)
Definition all_field_objects (d : dict (option Type_)) : Prop :=
  forall k f, In (k, f) d -> f <> None.


(** The parts of a field spec: its name, and its kind keyword if it has
    one. *)
Definition spec_name (spec : string) : string :=
  match split "|" spec with
  | n :: _ => n
  | [] => EmptyString
  end.

Definition spec_kind (spec : string) : option string :=
  nth_error (split "|" spec) 1.


(** A spec that has a kind keyword and, when the kind is [string], a
    maximal length that [int] accepts. *)
Definition well_formed_spec (spec : string) : bool :=
  match split "|" spec with
  | _ :: key :: rest =>
      if String.eqb key "string" then
        match rest with
        | param :: _ =>
            match int_of_str param with Ok _ => true | Raise _ => false end
        | [] => false
        end
      else true
  | _ => false
  end.

(** A well-formed spec whose kind is [string] or [int]. *)
Definition valid_spec (spec : string) : bool :=
  well_formed_spec spec
  && match spec_kind spec with
     | Some key => String.eqb key "string" || String.eqb key "int"
     | None => false
     end.


(** The values of the fields of a record, in the order of the fields; an
    entry that is [None] has no value. *)
Definition record_values (d : dict (option Type_)) : list (option pyval) :=
  map (fun kf : string * option Type_ => option_map value (snd kf)) d.

(** The indices that the calls of a run returned with a saved record. *)
Fixpoint saved_indices (rs : list (result retval)) : list Z :=
  match rs with
  | [] => []
  | Ok (RSaved i _) :: rs' => i :: saved_indices rs'
  | _ :: rs' => saved_indices rs'
  end.

(** [n], [n + 1], ... : [k] numbers. *)
Fixpoint count_from (n : Z) (k : nat) : list Z :=
  match k with
  | O => []
  | S k' => n :: count_from (n + 1) k'
  end.

Definition is_set_schema (c : command) : bool :=
  match c with Cset_schema _ => true | _ => false end.

(** What the specification says of the indices returned in a run: they
    count up by one from the number of records the store had, so from 0 in
    a run of the initial program. *)
Definition indices_count_up (p : Program) (cs : list command) : Prop :=
  let rs := snd (run p cs) in
  saved_indices rs
  = count_from (Z.of_nat (List.length (store (datastore p))))
      (List.length (saved_indices rs)).

(** ** Examples *)

Definition two_records : Datastore :=
  {| store := [Schema_init (VDict []); Schema_init VNone] |}.

Definition user_template : string :=
  "firstname|string|255 lastname|string|255 age|int".

Definition age_schema : Schema :=
  Schema_init (VDict [("age", Some (IntType "age"))]).


Definition fields_schema : Schema :=
  Schema_init (VDict [("fields", Some (IntType "fields"))]).

Definition f_schema : Schema :=
  Schema_init (VDict [("f", Some (IntType "f"))]).

Definition no_inherited (key : string) : bool := false.

Definition user_program : Program := set_schema Program_init user_template.

Definition user_fields : dict (option Type_) :=
  [("firstname", Some (StringType "firstname" 255));
   ("lastname", Some (StringType "lastname" 255));
   ("age", Some (IntType "age"))].

Definition int_program : Program := set_schema Program_init "a|int".

Definition restart_run : list command :=
  [Cset_schema "a|int"; Cadd "1"; Cset_schema "a|int"; Cadd "2"].

(** ** More of the program *)






(** [s.strip()]: the white space of Python at both ends is dropped; below
    256 the white-space characters are the ones below. *)
Definition isspace_char (c : ascii) : bool :=
  ((9 <=? code c) && (code c <=? 13))
  || ((28 <=? code c) && (code c <=? 32))
  || (code c =? 133) || (code c =? 160).

Fixpoint lstrip (s : string) : string :=
  match s with
  | String c s' => if isspace_char c then lstrip s' else s
  | EmptyString => EmptyString
  end.

Fixpoint rstrip (s : string) : string :=
  match s with
  | EmptyString => EmptyString
  | String c s' =>
      match rstrip s' with
      | EmptyString =>
          if isspace_char c then EmptyString else String c EmptyString
      | r => String c r
      end
  end.

Definition strip (s : string) : string := rstrip (lstrip s).

(** [s.split(sep, 1)]: the text before the first [sep], and the text after
    it if there is a [sep]. *)
Fixpoint split1 (sep : ascii) (s : string) : string * option string :=
  match s with
  | EmptyString => (EmptyString, None)
  | String c s' =>
      if Ascii.eqb c sep then (EmptyString, Some s')
      else let (a, b) := split1 sep s' in (String c a, b)
  end.

(** [s.replace(a, b)] for two characters *)
Fixpoint replace_char (a b : ascii) (s : string) : string :=
  match s with
  | EmptyString => EmptyString
  | String c s' =>
      String (if Ascii.eqb c a then b else c) (replace_char a b s')
  end.

(** The first steps of the loop of [run] on a line: nothing for a line
    that is empty once stripped, else the command word with its hyphens
    turned into underscores, and the argument. *)
Definition parse_line (input : string) : option (string * string) :=
  let line := strip input in
  match line with
  | EmptyString => None
  | _ =>
      let (word, rest) := split1 " " line in
      Some (replace_char "-" "_" word,
            match rest with Some arg => arg | None => EmptyString end)
  end.

(** The method that [getattr] finds for the name of one of the three
    commands, applied to the argument. *)
Definition command_of (cmd arg : string) : option command :=
  if String.eqb cmd "set_schema" then Some (Cset_schema arg)
  else if String.eqb cmd "add" then Some (Cadd arg)
  else if String.eqb cmd "get" then Some (Cget arg)
  else None.

(** The number of occurrences of a character in a text. *)
Fixpoint count_char (c : ascii) (s : string) : nat :=
  match s with
  | EmptyString => 0
  | String a s' => (if Ascii.eqb a c then 1 else 0) + count_char c s'
  end.

(** The fields without their values: names, order and classes. *)
Definition erase (kf : string * option Type_) : string * option Type_ :=
  (fst kf, option_map (fun t => set_value t VNone) (snd kf)).

Definition shape (fs : pyval) : pyval :=
  match fs with
  | VDict d => VDict (map erase d)
  | _ => fs
  end.

(** A record as [add] makes it: a schema whose fields are a [dict] of
    field objects, at least one, which all pass validation. *)
Definition record_ok (r : Schema) : Prop :=
  exists d,
    r = Schema_init (VDict d) /\ d <> [] /\ all_field_objects d /\
    validate_fields d = Ok tt.


Definition user_schema : Schema := Schema_init (VDict user_fields).



(** A line as the loop reads it: the command it names, when it names one
    of the three. *)
Definition read_command (input : string) : option command :=
  match parse_line input with
  | Some (cmd, arg) => command_of cmd arg
  | None => None
  end.

Definition not_space (c : ascii) : bool := negb (isspace_char c).

(** * Properties *)

(** ** Strings *)

Lemma prefix_empty (s : string) : String.prefix "" s = true.
Proof. now destruct s. Qed.

Lemma startswith_quote_iff (s : string) :
  startswith "'" s = true <-> exists t, s = String quote t.
Proof.
  unfold startswith, quote. destruct s as [|c s].
  - split; [discriminate | intros [t H]; discriminate].
  - change (String.prefix "'" (String c s))
      with (if Ascii.ascii_dec "'"%char c then String.prefix "" s else false).
    destruct (Ascii.ascii_dec "'"%char c) as [<-|Hne].
    + rewrite prefix_empty.
      split; [intros _; eexists; reflexivity | reflexivity].
    + split; [discriminate | intros [t H]; congruence].
Qed.

Lemma length_append (s t : string) :
  String.length (s ++ t) = (String.length s + String.length t)%nat.
Proof. induction s; simpl; congruence. Qed.

Lemma substring_all (s : string) :
  String.substring 0 (String.length s) s = s.
Proof. induction s; simpl; congruence. Qed.

Lemma substring_skip (t p : string) :
  String.substring (String.length t) (String.length p) (t ++ p) = p.
Proof.
  induction t; simpl.
  - apply substring_all.
  - assumption.
Qed.

Lemma substring_split (s : string) : forall k m : nat,
  (k + m = String.length s)%nat ->
  s = String.substring 0 k s ++ String.substring k m s.
Proof.
  induction s as [|c s IH]; intros k m H; simpl in H.
  - assert (k = 0%nat) by lia. assert (m = 0%nat) by lia. subst. reflexivity.
  - destruct k as [|k]; simpl.
    + destruct m as [|m]; [discriminate|]. simpl. f_equal.
      injection H as H. subst m. symmetry. apply substring_all.
    + f_equal. apply IH. lia.
Qed.

Lemma endswith_iff (p s : string) :
  endswith p s = true <-> exists t, s = t ++ p.
Proof.
  unfold endswith. rewrite andb_true_iff, Nat.leb_le, String.eqb_eq. split.
  - intros [Hle Hsub].
    exists (String.substring 0 (String.length s - String.length p) s).
    pose proof (substring_split s (String.length s - String.length p)
                  (String.length p) ltac:(lia)) as E.
    rewrite Hsub in E. exact E.
  - intros [t ->]. rewrite length_append. split; [lia|].
    replace (String.length t + String.length p - String.length p)%nat
      with (String.length t) by lia.
    apply substring_skip.
Qed.



(** ** Field types *)

Lemma set_value_value (f : Type_) (v : pyval) : value (set_value f v) = v.
Proof. reflexivity. Qed.

Lemma set_value_name (f : Type_) (v : pyval) : name (set_value f v) = name f.
Proof. reflexivity. Qed.

Lemma set_value_cls (f : Type_) (v : pyval) : cls (set_value f v) = cls f.
Proof. reflexivity. Qed.

(** C2. A string field validates exactly when its value is a [str] whose
    length, quote characters included, is at most [max_len] and which
    starts and ends with a single quote; [set_value] stores the value
    with its quotes. *)
Theorem StringType_validate_iff (nm : string) (max_len : Z) (v : pyval) :
  value (set_value (StringType nm max_len) v) = v /\
  (validate (set_value (StringType nm max_len) v) = Ok tt <->
   exists s, v = VStr s /\ len s <= max_len /\
             (exists t, s = String quote t) /\ (exists t, s = t ++ "'")).
Proof.
  split; [reflexivity|].
  unfold validate, StringType_validate; simpl.
  destruct v as [| b | z | f | s | c o | d]; simpl;
    try (split; [discriminate | intros (s & H & _); discriminate]).
  destruct (len s <=? max_len) eqn:Hlen; simpl.
  - apply Z.leb_le in Hlen.
    destruct (startswith "'" s && endswith "'" s) eqn:Hq; simpl.
    + apply andb_true_iff in Hq as [Hs He].
      apply startswith_quote_iff in Hs. apply endswith_iff in He.
      split; [intros _; exists s; auto | reflexivity].
    + split; [discriminate|]. intros (s' & Heq & _ & Hs & He).
      injection Heq as <-.
      apply startswith_quote_iff in Hs. apply endswith_iff in He.
      rewrite Hs, He in Hq. discriminate.
  - apply Z.leb_gt in Hlen. split; [discriminate|].
    intros (s' & Heq & Hl & _). injection Heq as <-. lia.
Qed.



(** ** Lists *)

Lemma list_getitem_front {A : Type} (l : list A) (i : Z) :
  0 <= i < Z.of_nat (List.length l) ->
  exists a, nth_error l (Z.to_nat i) = Some a /\ list_getitem l i = Ok a.
Proof.
  intros H. unfold list_getitem. cbv zeta.
  destruct (i <? 0) eqn:Hneg; [apply Z.ltb_lt in Hneg; lia|].
  rewrite Hneg. simpl.
  destruct (Z.of_nat (List.length l) <=? i) eqn:Hhi;
    [apply Z.leb_le in Hhi; lia|].
  destruct (nth_error l (Z.to_nat i)) as [a|] eqn:Hn.
  - exists a. split; reflexivity.
  - apply nth_error_None in Hn. lia.
Qed.

Lemma list_getitem_back {A : Type} (l : list A) (i : Z) :
  - Z.of_nat (List.length l) <= i < 0 ->
  list_getitem l i = list_getitem l (i + Z.of_nat (List.length l)).
Proof.
  intros H. unfold list_getitem. cbv zeta.
  destruct (i <? 0) eqn:Hneg; [|apply Z.ltb_ge in Hneg; lia].
  cbv iota.
  destruct (i + Z.of_nat (List.length l) <? 0) eqn:Hneg';
    [apply Z.ltb_lt in Hneg'; lia|].
  cbv iota. rewrite Hneg'. reflexivity.
Qed.

Lemma list_getitem_below {A : Type} (l : list A) (i : Z) :
  i < - Z.of_nat (List.length l) -> list_getitem l i = Raise IndexError.
Proof.
  intros H. unfold list_getitem. cbv zeta.
  destruct (i <? 0) eqn:Hneg; [|apply Z.ltb_ge in Hneg; lia].
  cbv iota.
  destruct (i + Z.of_nat (List.length l) <? 0) eqn:Hneg';
    [reflexivity | apply Z.ltb_ge in Hneg'; lia].
Qed.

Lemma list_getitem_last {A : Type} (l : list A) (a : A) :
  list_getitem (l ++ [a])%list (Z.of_nat (List.length (l ++ [a])%list) - 1)
  = Ok a.
Proof.
  destruct (list_getitem_front (l ++ [a])%list
              (Z.of_nat (List.length (l ++ [a])%list) - 1)) as (b & Hn & Hg).
  - rewrite length_app. simpl. lia.
  - rewrite Hg. f_equal.
    rewrite length_app in Hn. simpl in Hn.
    replace (Z.to_nat (Z.of_nat (List.length l + 1) - 1)) with (List.length l)
      in Hn by lia.
    rewrite nth_error_app2 in Hn by lia.
    rewrite Nat.sub_diag in Hn. simpl in Hn. congruence.
Qed.

(** ** The datastore *)

(** The two cases of a test [a > b]. *)
Ltac gtb_case H :=
  match goal with
  | |- context [?a >? ?b] =>
      destruct (a >? b) eqn:H; rewrite Z.gtb_ltb in H;
      [apply Z.ltb_lt in H | apply Z.ltb_ge in H]
  end.

(** C8. [load] compares the index with the upper bound only.  An index
    above the last one gives [None]; an index from [0] up to the last one
    gives the record at that place; a negative index is given to the list,
    which counts it from the end and raises [IndexError] when it reaches
    before the first record.  [get 99] on an empty store returns [None]. *)
Theorem load_upper_bound_only (self : Datastore) (index : Z) :
  let n := Z.of_nat (List.length (store self)) in
  (index > n - 1 -> load self index = Ok None) /\
  (0 <= index <= n - 1 ->
   exists r, nth_error (store self) (Z.to_nat index) = Some r /\
             load self index = Ok (Some r)) /\
  (- n <= index < 0 ->
   exists r, nth_error (store self) (Z.to_nat (index + n)) = Some r /\
             load self index = Ok (Some r)) /\
  (index < - n -> load self index = Raise IndexError) /\
  (forall p, store (datastore p) = [] -> get p (VStr "99") = (p, [], Ok RNone)).
Proof.
  intros n. unfold load. fold n. repeat split.
  - intros H. gtb_case Hgt; [reflexivity | lia].
  - intros H. gtb_case Hgt; [lia|].
    destruct (list_getitem_front (store self) index) as (r & Hn & Hg);
      [unfold n in H; lia|].
    exists r. rewrite Hg. split; [assumption | reflexivity].
  - intros H. gtb_case Hgt; [lia|].
    rewrite list_getitem_back by (unfold n in H; lia). fold n.
    destruct (list_getitem_front (store self) (index + n)) as (r & Hn & Hg);
      [unfold n in *; lia|].
    exists r. rewrite Hg. split; [assumption | reflexivity].
  - intros H. gtb_case Hgt; [lia|].
    rewrite list_getitem_below by (unfold n in H; lia). reflexivity.
  - intros p Hp. unfold get, load. rewrite Hp. reflexivity.
Qed.

Lemma load_upper_bound_only_witness :
  load two_records 2 = Ok None /\
  load two_records (-1) = Ok (Some (Schema_init VNone)) /\
  load two_records (-3) = Raise IndexError /\
  get Program_init (VStr "99") = (Program_init, [], Ok RNone).
Proof.
  pose proof (load_upper_bound_only two_records 2) as (H2 & _).
  pose proof (load_upper_bound_only two_records (-1)) as (_ & _ & Hm & _).
  pose proof (load_upper_bound_only two_records (-3))
    as (_ & _ & _ & Hb & Hget).
  split; [apply H2; simpl; lia|].
  split; [destruct Hm as (r & Hn & Hl); [simpl; lia|];
          rewrite Hl; simpl in Hn; congruence|].
  split; [apply Hb; simpl; lia|].
  apply Hget. reflexivity.
Defined.

(** ** The program *)

Lemma no_schema_iff (s : option string) :
  no_schema s = true <-> s = None \/ s = Some "".
Proof.
  destruct s as [[|c s]|]; simpl; split; auto; try discriminate.
  intros [H|H]; discriminate.
Qed.

(** C7. [set_schema] keeps the template as it is given and empties the
    store; after [set-schema S1], [add d1], [set-schema S2], the command
    [get 0] returns [None]. *)
Theorem set_schema_clears (p : Program) (S1 d1 S2 : string) :
  current_schema (set_schema p S1) = Some S1 /\
  store (datastore (set_schema p S1)) = [] /\
  exists p' r1 r2 r3,
    run p [Cset_schema S1; Cadd d1; Cset_schema S2; Cget "0"]
    = (p', [r1; r2; r3; Ok RNone]) /\
    store (datastore p') = [].
Proof.
  split; [reflexivity|]. split; [reflexivity|].
  cbn [run call].
  destruct (add (set_schema p S1) d1) as [[q out] r] eqn:Hadd.
  exists (set_schema q S2), (Ok RNone), r, (Ok RNone).
  split; reflexivity.
Qed.

(** C10. With no template, or with the empty template that [set-schema]
    without argument leaves, [add] prints its message and returns [None]:
    the program is as before, and no schema is built, although building one
    from the empty template would raise. *)
Theorem add_without_schema (p : Program) (data : string) :
  (current_schema p = None \/ current_schema p = Some "" ->
   add p data = (p, ["No schema defined"], Ok RNone)) /\
  add (set_schema p "") data
  = (set_schema p "", ["No schema defined"], Ok RNone) /\
  create_schema_instance "" = Raise IndexError.
Proof.
  split; [|split; reflexivity].
  intros H. apply no_schema_iff in H. unfold add. now rewrite H.
Qed.

Lemma add_without_schema_witness :
  add Program_init "'John' 'Doe' 30"
  = (Program_init, ["No schema defined"], Ok RNone).
Proof.
  apply (add_without_schema Program_init "'John' 'Doe' 30").
  left. reflexivity.
Defined.

(** ** The schema *)


Lemma all_field_objects_cons (k : string) (f : option Type_)
  (d : dict (option Type_)) :
  all_field_objects ((k, f) :: d) -> f <> None /\ all_field_objects d.
Proof.
  intros H. split.
  - apply (H k). now left.
  - intros k' f' Hin. apply (H k'). now right.
Qed.

Lemma positional_nil (d : dict (option Type_)) : positional d [] = d.
Proof. unfold positional. now rewrite combine_nil. Qed.

Lemma positional_cons (k : string) (f : option Type_)
  (d : dict (option Type_)) (v : pyval) (values : list pyval) :
  positional ((k, f) :: d) (v :: values)
  = (k, option_map (fun t => set_value t v) f) :: positional d values.
Proof. reflexivity. Qed.

Lemma positional_length (d : dict (option Type_)) :
  forall values, List.length (positional d values) = List.length d.
Proof.
  induction d as [|[k f] d IH]; intros values.
  - unfold positional. simpl. rewrite skipn_nil. now destruct values.
  - destruct values as [|v values]; [now rewrite positional_nil|].
    rewrite positional_cons. simpl. now rewrite IH.
Qed.

(** A field that has a value at its place takes it. *)
Lemma positional_assigned (d : dict (option Type_)) :
  forall values i k f v,
    nth_error d i = Some (k, f) -> nth_error values i = Some v ->
    nth_error (positional d values) i
    = Some (k, option_map (fun t => set_value t v) f).
Proof.
  induction d as [|[k0 f0] d IH]; intros values i k f v Hd Hv.
  - destruct i; discriminate.
  - destruct values as [|v0 values]; [destruct i; discriminate|].
    rewrite positional_cons. destruct i as [|i]; simpl in *.
    + injection Hd as -> ->. injection Hv as ->. reflexivity.
    + apply (IH values i k f v Hd Hv).
Qed.

(** A field beyond the values keeps what it has. *)
Lemma positional_unset (d : dict (option Type_)) :
  forall values i,
    (List.length values <= i)%nat ->
    nth_error (positional d values) i = nth_error d i.
Proof.
  induction d as [|[k0 f0] d IH]; intros values i Hi.
  - unfold positional. simpl. rewrite skipn_nil. now destruct values.
  - destruct values as [|v0 values]; [now rewrite positional_nil|].
    rewrite positional_cons. destruct i as [|i]; simpl in *; [lia|].
    apply IH. lia.
Qed.

Lemma positional_field_objects (d : dict (option Type_)) :
  forall values, all_field_objects d -> all_field_objects (positional d values).
Proof.
  induction d as [|[k f] d IH]; intros values H.
  - unfold positional. simpl. rewrite skipn_nil.
    destruct values; simpl; intros k f [].
  - destruct values as [|v values]; [now rewrite positional_nil|].
    rewrite positional_cons. apply all_field_objects_cons in H as [Hf Hd].
    intros k' f' [Heq|Hin].
    + injection Heq as <- <-. destruct f; [discriminate | now elim Hf].
    + apply (IH values Hd k' f' Hin).
Qed.

(** On field objects the loop of [set_values] does not raise, and leaves
    the fields that the positional assignment describes. *)
Lemma assign_positional (d : dict (option Type_)) :
  forall values, all_field_objects d ->
  assign d values = (positional d values, Ok tt).
Proof.
  induction d as [|[k f] d IH]; intros values H.
  - unfold positional. simpl. rewrite skipn_nil. now destruct values.
  - destruct values as [|v values]; [now rewrite positional_nil|].
    apply all_field_objects_cons in H as [Hf Hd].
    destruct f as [t|]; [|now elim Hf].
    simpl. rewrite (IH values Hd). reflexivity.
Qed.





Lemma dict_contains_get {A : Type} (d : dict A) (k : string) :
  dict_contains d k
  = match dict_get d k with Some _ => true | None => false end.
Proof. reflexivity. Qed.




(** The first test of [__setattr__] also holds for a part of the word
    [fields]: a field named [f] is written as plain instance state. *)
Example Schema_setattr_substring :
  Schema_setattr f_schema "f" (VInt 1)
  = Ok (object_setattr f_schema "f" (VInt 1))
  /\ fields (object_setattr f_schema "f" (VInt 1)) = fields f_schema.
Proof. split; reflexivity. Qed.

Example Schema_setattr_fields :
  Schema_setattr fields_schema "fields" (VInt 1)
  = Ok {| fields := VInt 1; attrs := [] |}.
Proof. reflexivity. Qed.

(** ** The schema builder *)

Lemma list_getitem_nth {A : Type} (l : list A) (n : nat) (i : Z) (a : A) :
  i = Z.of_nat n -> nth_error l n = Some a -> list_getitem l i = Ok a.
Proof.
  intros -> H. destruct (list_getitem_front l (Z.of_nat n)) as (b & Hb & Hg).
  - assert (n < List.length l)%nat by (apply nth_error_Some; congruence). lia.
  - rewrite Nat2Z.id in Hb. congruence.
Qed.

Lemma list_getitem_none {A : Type} (l : list A) (n : nat) :
  nth_error l n = None -> list_getitem l (Z.of_nat n) = Raise IndexError.
Proof.
  intros H. apply nth_error_None in H. unfold list_getitem. cbv zeta.
  destruct (Z.of_nat n <? 0) eqn:Hneg; [apply Z.ltb_lt in Hneg; lia|].
  cbv iota. rewrite Hneg. simpl.
  destruct (Z.of_nat (List.length l) <=? Z.of_nat n) eqn:Hhi;
    [reflexivity | apply Z.leb_gt in Hhi; lia].
Qed.

Lemma dict_get_set_same {A : Type} (d : dict A) (k : string) (a : A) :
  dict_get (dict_set d k a) k = Some a.
Proof.
  induction d as [|[k' a'] d IH]; simpl.
  - now rewrite String.eqb_refl.
  - destruct (String.eqb k' k) eqn:E; simpl; rewrite E;
      [reflexivity | exact IH].
Qed.

Lemma dict_get_set_other {A : Type} (d : dict A) (k k' : string) (a : A) :
  k <> k' -> dict_get (dict_set d k a) k' = dict_get d k'.
Proof.
  intros Hne. induction d as [|[k0 a0] d IH]; simpl.
  - apply String.eqb_neq in Hne. now rewrite Hne.
  - destruct (String.eqb k0 k) eqn:E; simpl.
    + apply String.eqb_eq in E. subst k0.
      apply String.eqb_neq in Hne. now rewrite Hne.
    + now rewrite IH.
Qed.



(** A well-formed spec is unpacked without an exception. *)
Lemma unpack_type_well_formed (spec : string) :
  well_formed_spec spec = true ->
  list_getitem (split "|" spec) 0 = Ok (spec_name spec) /\
  exists f, unpack_type (split "|" spec) = Ok f.
Proof.
  unfold well_formed_spec, spec_name, unpack_type.
  destruct (split "|" spec) as [|n [|key rest]]; try discriminate.
  intros H.
  rewrite (list_getitem_nth (n :: key :: rest) 0 0 n eq_refl eq_refl).
  rewrite (list_getitem_nth (n :: key :: rest) 1 1 key eq_refl eq_refl).
  split; [reflexivity|]. cbn [bind]. unfold key2type.
  destruct (String.eqb key "string") eqn:Es.
  - destruct rest as [|param rest]; [discriminate|].
    rewrite (list_getitem_nth (n :: key :: param :: rest) 2 2 param
               eq_refl eq_refl).
    cbn [bind py_int].
    destruct (int_of_str param) as [z|e]; [|discriminate].
    eexists; reflexivity.
  - destruct (String.eqb key "int"); eexists; reflexivity.
Qed.

Lemma collect_fields_app (l1 l2 : list string) :
  forall acc,
    collect_fields (l1 ++ l2)%list acc
    = (d <- collect_fields l1 acc ;; collect_fields l2 d).
Proof.
  induction l1 as [|t l1 IH]; intros acc; [reflexivity|].
  cbn [collect_fields app].
  destruct (list_getitem (split "|" t) 0) as [n|e]; [|reflexivity].
  cbn [bind].
  destruct (unpack_type (split "|" t)) as [f|e]; [|reflexivity].
  cbn [bind]. apply IH.
Qed.

Lemma collect_fields_well_formed (l : list string) :
  Forall (fun s => well_formed_spec s = true) l ->
  forall acc, exists d, collect_fields l acc = Ok d.
Proof.
  induction 1 as [|t l Ht Hl IH]; intros acc; [now exists acc|].
  cbn [collect_fields].
  destruct (unpack_type_well_formed t Ht) as (-> & f & ->).
  cbn [bind]. apply IH.
Qed.

(** The specs after a name leave it as it is when none of them declares
    it again. *)
Lemma collect_fields_keeps (l : list string) (k : string) :
  (forall s, In s l -> spec_name s <> k) ->
  forall acc d, collect_fields l acc = Ok d -> dict_get d k = dict_get acc k.
Proof.
  induction l as [|t l IH]; intros Hk acc d H.
  - injection H as <-. reflexivity.
  - cbn [collect_fields] in H.
    assert (Hn : forall n, list_getitem (split "|" t) 0 = Ok n ->
                           n = spec_name t).
    { unfold spec_name. destruct (split "|" t) as [|n0 rest].
      - discriminate.
      - rewrite (list_getitem_nth (n0 :: rest) 0 0 n0 eq_refl eq_refl).
        congruence. }
    destruct (list_getitem (split "|" t) 0) as [n|e]; [|discriminate].
    specialize (Hn n eq_refl). subst n. cbn [bind] in H.
    destruct (unpack_type (split "|" t)) as [f|e]; [|discriminate].
    cbn [bind] in H.
    rewrite (IH (fun s Hs => Hk s (or_intror Hs)) _ _ H).
    apply dict_get_set_other. apply Hk. now left.
Qed.




(** ** Adding and getting a record *)

Lemma split_not_nil (sep : ascii) (s : string) : split sep s <> [].
Proof.
  destruct s as [|c s]; simpl; [discriminate|].
  destruct (Ascii.eqb c sep); [discriminate|].
  destruct (split sep s); discriminate.
Qed.

Lemma dict_set_field_objects (d : dict (option Type_)) (k : string)
  (t : Type_) :
  all_field_objects d -> all_field_objects (dict_set d k (Some t)).
Proof.
  induction d as [|[k' f'] d IH]; intros H; simpl.
  - intros k0 f0 [[= <- <-]|[]]. discriminate.
  - apply all_field_objects_cons in H as [Hf Hd].
    destruct (String.eqb k' k); intros k0 f0 [[= <- <-]|Hin];
      try discriminate; try assumption.
    + apply (Hd k0 f0 Hin).
    + apply (IH Hd k0 f0 Hin).
Qed.

(** A valid spec is unpacked to a field object. *)
Lemma unpack_type_valid (spec : string) :
  valid_spec spec = true ->
  list_getitem (split "|" spec) 0 = Ok (spec_name spec) /\
  exists t, unpack_type (split "|" spec) = Ok (Some t).
Proof.
  unfold valid_spec. rewrite andb_true_iff. intros [Hwf Hk].
  destruct (unpack_type_well_formed spec Hwf) as (Hn & f & Hf).
  split; [exact Hn|].
  unfold spec_kind in Hk. unfold unpack_type in *.
  destruct (split "|" spec) as [|n [|key rest]]; try discriminate.
  simpl in Hk.
  rewrite (list_getitem_nth (n :: key :: rest) 0 0 n eq_refl eq_refl) in *.
  rewrite (list_getitem_nth (n :: key :: rest) 1 1 key eq_refl eq_refl) in *.
  cbn [bind] in *. unfold key2type in *.
  destruct (String.eqb key "string").
  - destruct (list_getitem (n :: key :: rest) 2) as [param|]; [|discriminate].
    cbn [bind] in *.
    destruct (py_int (VStr param)) as [z|]; [|discriminate].
    eexists; reflexivity.
  - simpl in Hk. rewrite Hk. eexists; reflexivity.
Qed.

Lemma collect_fields_valid (l : list string) :
  Forall (fun s => valid_spec s = true) l ->
  forall acc d, all_field_objects acc -> collect_fields l acc = Ok d ->
  all_field_objects d.
Proof.
  induction 1 as [|t l Ht Hl IH]; intros acc d Hacc H.
  - injection H as <-. exact Hacc.
  - cbn [collect_fields] in H.
    destruct (unpack_type_valid t Ht) as (Hn & f & Hf).
    rewrite Hn, Hf in H. cbn [bind] in H.
    apply (IH _ _ (dict_set_field_objects _ _ _ Hacc) H).
Qed.

Lemma validate_fields_all (d : dict (option Type_)) :
  (forall k f, In (k, f) d -> entry_validate f = Ok tt) ->
  validate_fields d = Ok tt.
Proof.
  induction d as [|[k f] d IH]; intros H; [reflexivity|].
  simpl. rewrite (H k f (or_introl eq_refl)). simpl.
  apply IH. intros k' f' Hin. apply (H k'). now right.
Qed.

(** When there is one token for each field, the positional assignment
    leaves the names as they are and the tokens as the values. *)
Lemma positional_tokens (d : dict (option Type_)) :
  forall tokens,
    List.length tokens = List.length d ->
    all_field_objects d ->
    map fst (positional d (map VStr tokens)) = map fst d /\
    record_values (positional d (map VStr tokens))
    = map (fun tok => Some (VStr tok)) tokens.
Proof.
  induction d as [|[k f] d IH]; intros tokens Hlen Hobj.
  - destruct tokens; [split; reflexivity | discriminate].
  - destruct tokens as [|tok tokens]; [discriminate|].
    injection Hlen as Hlen.
    apply all_field_objects_cons in Hobj as [Hf Hd].
    destruct f as [t|]; [|now elim Hf].
    cbn [map]. rewrite positional_cons.
    destruct (IH tokens Hlen Hd) as [Hnames Hvalues].
    split.
    + cbn [map fst]. now rewrite Hnames.
    + unfold record_values in *. cbn [map snd option_map]. now rewrite Hvalues.
Qed.

Lemma positional_tokens_valid (d : dict (option Type_)) :
  forall tokens,
    List.length tokens = List.length d ->
    (forall i k t tok,
       nth_error d i = Some (k, Some t) -> nth_error tokens i = Some tok ->
       validate (set_value t (VStr tok)) = Ok tt) ->
    all_field_objects d ->
    forall k f, In (k, f) (positional d (map VStr tokens)) ->
                entry_validate f = Ok tt.
Proof.
  induction d as [|[k f] d IH]; intros tokens Hlen Hval Hobj k' f' Hin.
  - destruct tokens; [destruct Hin | discriminate].
  - destruct tokens as [|tok tokens]; [discriminate|].
    injection Hlen as Hlen.
    apply all_field_objects_cons in Hobj as [Hf Hd].
    destruct f as [t|]; [|now elim Hf].
    cbn [map] in Hin. rewrite positional_cons in Hin.
    destruct Hin as [[= <- <-]|Hin].
    + apply (Hval 0%nat k t tok eq_refl eq_refl).
    + apply (IH tokens Hlen (fun i => Hval (S i)) Hd k' f' Hin).
Qed.

Lemma deserialize_tokens (d : dict (option Type_)) (data : string) :
  List.length (split " " data) = List.length d ->
  all_field_objects d ->
  (forall i k t tok,
     nth_error d i = Some (k, Some t) ->
     nth_error (split " " data) i = Some tok ->
     validate (set_value t (VStr tok)) = Ok tt) ->
  deserialize (Schema_init (VDict d)) data
  = (Schema_init (VDict (positional d (map VStr (split " " data)))), Ok tt).
Proof.
  intros Hlen Hobj Hval. unfold deserialize, fieldlen.
  cbn [Schema_init fields py_len].
  rewrite Hlen, Z.eqb_refl. unfold set_values.
  pose proof (split_not_nil " " data) as Hne.
  destruct (split " " data) as [|tok tokens] eqn:Htok; [now elim Hne|].
  unfold Schema_init. cbn [map truthy_list fields py_items].
  rewrite (assign_positional d (VStr tok :: map VStr tokens) Hobj).
  unfold build, Schema_validate. cbn [fields py_items bind attrs].
  change (VStr tok :: map VStr tokens) with (map VStr (tok :: tokens)).
  rewrite (validate_fields_all _
             (positional_tokens_valid d (tok :: tokens) Hlen Hval Hobj)).
  reflexivity.
Qed.

Lemma valid_template_not_empty (template : string) :
  Forall (fun s => valid_spec s = true) (split " " template) ->
  no_schema (Some template) = false.
Proof.
  destruct template; [|reflexivity].
  intros H. inversion H as [|s l Hs Hl]. discriminate.
Qed.

(** C1. With a template of valid specs as the current schema, a line with
    one token for each field of the schema, and tokens that pass the
    validation of their fields, [add] stores a record and returns its
    index, [get] with that index returns the record, and the values of its
    fields are the tokens of the line. *)
Theorem add_get_roundtrip (p : Program) (template data : string)
  (d : dict (option Type_)) :
  current_schema p = Some template ->
  Forall (fun s => valid_spec s = true) (split " " template) ->
  create_schema_instance template = Ok (Schema_init (VDict d)) ->
  List.length (split " " data) = List.length d ->
  (forall i k t tok,
     nth_error d i = Some (k, Some t) ->
     nth_error (split " " data) i = Some tok ->
     validate (set_value t (VStr tok)) = Ok tt) ->
  exists index record p' d',
    add p data = (p', [], Ok (RSaved index record)) /\
    get p' (VInt index) = (p', [], Ok (RRecord record)) /\
    fields record = VDict d' /\
    map fst d' = map fst d /\
    record_values d' = map (fun tok => Some (VStr tok)) (split " " data).
Proof.
  intros Hcur Hvalid Hbuild Hlen Hval.
  assert (Hobj : all_field_objects d).
  { unfold create_schema_instance in Hbuild.
    destruct (collect_fields (split " " template) []) as [d0|e] eqn:Hc;
      [|discriminate].
    injection Hbuild as <-.
    apply (collect_fields_valid _ Hvalid [] d0); [intros k f []|exact Hc]. }
  set (record :=
         Schema_init (VDict (positional d (map VStr (split " " data))))).
  set (store' := (store (datastore p) ++ [record])%list).
  exists (Z.of_nat (List.length store') - 1), record,
    {| datastore := {| store := store' |};
       current_schema := current_schema p |},
    (positional d (map VStr (split " " data))).
  destruct (positional_tokens d (split " " data) Hlen Hobj) as [Hnames Hvalues].
  repeat split; try assumption.
  - unfold add. rewrite Hcur, (valid_template_not_empty _ Hvalid), Hbuild.
    rewrite (deserialize_tokens d data Hlen Hobj Hval). reflexivity.
  - unfold get, load. cbn [py_int bind datastore store].
    gtb_case Hgt; [lia|].
    unfold store'. rewrite list_getitem_last. reflexivity.
Qed.

Lemma add_get_roundtrip_witness :
  exists index record p' d',
    add user_program "'John' 'Doe' 30" = (p', [], Ok (RSaved index record)) /\
    get p' (VInt index) = (p', [], Ok (RRecord record)) /\
    fields record = VDict d' /\
    map fst d' = map fst user_fields /\
    record_values d'
    = map (fun tok => Some (VStr tok)) (split " " "'John' 'Doe' 30").
Proof.
  apply (add_get_roundtrip user_program user_template "'John' 'Doe' 30"
           user_fields).
  - reflexivity.
  - change (split " " user_template)
      with ["firstname|string|255"; "lastname|string|255"; "age|int"].
    repeat constructor.
  - reflexivity.
  - reflexivity.
  - intros i k t tok Hd Htok.
    change (split " " "'John' 'Doe' 30") with ["'John'"; "'Doe'"; "30"] in Htok.
    destruct i as [|[|[|i]]]; simpl in Hd, Htok;
      try (injection Hd as <- <-; injection Htok as <-; reflexivity).
    destruct i; discriminate.
Defined.

(** ** Failed and successful calls of [add] *)

Lemma set_values_validated (self record : Schema)
  (values : option (list pyval)) (u : unit) :
  truthy_list values = true ->
  set_values self values = (record, Ok u) ->
  Schema_validate record = Ok tt.
Proof.
  intros Ht. unfold set_values. rewrite Ht.
  destruct (py_items (fields self)) as [d|e]; [|discriminate].
  destruct (assign d _) as [d' r].
  intros [= <- H]. destruct r as [[]|e]; [|discriminate].
  cbn [bind] in H. unfold build in H.
  destruct (Schema_validate _) as [[]|e]; [reflexivity | discriminate].
Qed.

Lemma deserialize_validated (schema record : Schema) (data : string)
  (u : unit) :
  deserialize schema data = (record, Ok u) -> Schema_validate record = Ok tt.
Proof.
  unfold deserialize. destruct (fieldlen schema) as [m|e]; [|discriminate].
  destruct (_ =? m); [|discriminate].
  apply set_values_validated.
  pose proof (split_not_nil " " data) as Hne.
  destruct (split " " data); [now elim Hne | reflexivity].
Qed.

(** A call of [add] either saves one validated record after the others
    and returns the place it took, or leaves the program as it is and
    returns [None] or raises. *)
Lemma add_cases (p : Program) (data : string) :
  (exists record,
     add p data
     = ({| datastore := {| store := (store (datastore p) ++ [record])%list |};
           current_schema := current_schema p |},
        [], Ok (RSaved (Z.of_nat (List.length (store (datastore p)))) record))
     /\ Schema_validate record = Ok tt) \/
  (exists out r,
     add p data = (p, out, r) /\ (r = Ok RNone \/ exists e, r = Raise e)).
Proof.
  unfold add. destruct (no_schema (current_schema p)).
  - right. eexists _, _. split; [reflexivity | now left].
  - destruct (create_schema_instance _) as [schema|e].
    + destruct (deserialize schema data) as [record [u|e]] eqn:Hd.
      * left. exists record. split.
        -- unfold save. cbn [fst snd]. rewrite length_app. cbn [List.length].
           do 3 f_equal. lia.
        -- apply (deserialize_validated _ _ _ _ Hd).
      * right. eexists _, _. split; [reflexivity | right; eauto].
    + right. eexists _, _. split; [reflexivity | right; eauto].
Qed.

Lemma get_saves_nothing (p : Program) (index : pyval) :
  exists r, get p index = (p, [], r) /\ saved_indices [r] = [].
Proof.
  unfold get. eexists. split; [reflexivity|].
  destruct (py_int index) as [i|e]; [|reflexivity]. cbn [bind].
  destruct (load (datastore p) i) as [[rec|]|e]; reflexivity.
Qed.

Lemma saved_indices_cons (r : result retval) (rs : list (result retval)) :
  saved_indices (r :: rs) = (saved_indices [r] ++ saved_indices rs)%list.
Proof. destruct r as [[| i rec | rec]|e]; reflexivity. Qed.

Lemma run_cons (p : Program) (c : command) (cs : list command) :
  run p (c :: cs)
  = (fst (run (fst (fst (call p c))) cs),
     snd (call p c) :: snd (run (fst (fst (call p c))) cs)).
Proof.
  cbn [run]. destruct (call p c) as [[p' out] r]. cbn [fst snd].
  now destruct (run p' cs).
Qed.

(** Between two [set-schema] commands the indices count up from the
    number of records in the store, and the store grows by the records
    saved. *)
Lemma run_indices (cs : list command) :
  forall p,
    forallb (fun c => negb (is_set_schema c)) cs = true ->
    indices_count_up p cs /\
    List.length (store (datastore (fst (run p cs))))
    = (List.length (store (datastore p))
       + List.length (saved_indices (snd (run p cs))))%nat.
Proof.
  unfold indices_count_up. cbv zeta.
  induction cs as [|c cs IH]; intros p Hcs;
    [split; simpl; [reflexivity | lia]|].
  cbn [forallb] in Hcs. apply andb_true_iff in Hcs as [Hc Hcs].
  rewrite run_cons. cbn [fst snd]. rewrite saved_indices_cons.
  assert (Hsame : fst (fst (call p c)) = p ->
                  saved_indices [snd (call p c)] = [] ->
                  saved_indices (snd (run (fst (fst (call p c))) cs))
                  = count_from (Z.of_nat (List.length (store (datastore p))))
                      (List.length
                         (saved_indices (snd (run (fst (fst (call p c))) cs))))
                  /\ List.length
                       (store (datastore (fst (run (fst (fst (call p c))) cs))))
                     = (List.length (store (datastore p))
                        + List.length
                            (saved_indices
                               (snd (run (fst (fst (call p c))) cs))))%nat).
  { intros -> _. apply (IH p Hcs). }
  destruct c as [arg | arg | arg]; [discriminate | |]; cbn [call] in *.
  - destruct (add_cases p arg) as [(record & Hadd & _) | (out & r & Hadd & Hr)].
    + rewrite Hadd. cbn [fst snd saved_indices app List.length count_from].
      set (p' := {| datastore :=
                      {| store := (store (datastore p) ++ [record])%list |};
                    current_schema := current_schema p |}).
      destruct (IH p' Hcs) as [Hi Hl].
      unfold p' in Hi at 2, Hl at 2. cbn [datastore store] in Hi, Hl.
      rewrite length_app in Hi, Hl. cbn [List.length] in Hi, Hl.
      split; [|lia]. f_equal. rewrite Hi at 1. f_equal. lia.
    + rewrite Hadd in *. cbn [fst snd] in *.
      assert (Hr' : saved_indices [r] = [])
        by (destruct Hr as [-> | [e ->]]; reflexivity).
      rewrite Hr'. apply (Hsame eq_refl Hr').
  - destruct (get_saves_nothing p (VStr arg)) as (r & Hget & Hr).
    rewrite Hget in *. cbn [fst snd] in *. rewrite Hr.
    apply (Hsame eq_refl Hr).
Qed.

(** C4, as the code has it.  With a schema built from the current
    template, a line whose number of tokens differs from the number of
    fields makes [add] raise the assertion on the number of fields.  A call
    of [add] that raises leaves the program as it was.  A call that saves
    appends one record, which passes validation, and returns the place the
    record took.  Over commands that do not set the schema, the indices
    returned count up by one from the number of records in the store: they
    start again at 0 when [set-schema] empties the store. *)
Theorem add_all_or_nothing :
  (forall p template data schema m,
     current_schema p = Some template -> template <> "" ->
     create_schema_instance template = Ok schema ->
     fieldlen schema = Ok m ->
     Z.of_nat (List.length (split " " data)) <> m ->
     add p data
     = (p, [],
        Raise (AssertionError
                 [Lit "Incorrect number of fields. Expected "; Fmt (VInt m);
                  Lit ", Actual ";
                  Fmt (VInt (Z.of_nat (List.length (split " " data))))]))) /\
  (forall p data p' out e, add p data = (p', out, Raise e) -> p' = p) /\
  (forall p data p' out i record,
     add p data = (p', out, Ok (RSaved i record)) ->
     store (datastore p') = (store (datastore p) ++ [record])%list /\
     i = Z.of_nat (List.length (store (datastore p))) /\
     Schema_validate record = Ok tt) /\
  (forall p cs,
     forallb (fun c => negb (is_set_schema c)) cs = true ->
     indices_count_up p cs).
Proof.
  repeat apply conj.
  - intros p template data schema m Hcur Hne Hbuild Hlen Hcount.
    unfold add. rewrite Hcur.
    assert (no_schema (Some template) = false) as ->
      by (destruct template; [now elim Hne | reflexivity]).
    rewrite Hbuild. unfold deserialize. rewrite Hlen.
    apply Z.eqb_neq in Hcount. rewrite Hcount. reflexivity.
  - intros p data p' out e Hadd.
    destruct (add_cases p data) as [(record & H & _) | (out' & r & H & _)];
      rewrite H in Hadd; congruence.
  - intros p data p' out i record Hadd.
    destruct (add_cases p data)
      as [(record' & H & Hv) | (out' & r & H & [-> | [e ->]])];
      rewrite H in Hadd; try discriminate.
    injection Hadd as <- <- <- <-. auto.
  - intros p cs Hcs. apply (run_indices cs p Hcs).
Qed.

Lemma add_all_or_nothing_witness :
  add user_program "'John' 'Doe'"
  = (user_program, [],
     Raise (AssertionError
              [Lit "Incorrect number of fields. Expected "; Fmt (VInt 3);
               Lit ", Actual "; Fmt (VInt 2)])) /\
  indices_count_up int_program [Cadd "1"; Cadd "x"; Cget "0"; Cadd "2"] /\
  saved_indices
    (snd (run int_program [Cadd "1"; Cadd "x"; Cget "0"; Cadd "2"]))
  = [0; 1].
Proof.
  destruct add_all_or_nothing as (Hformat & _ & _ & Hrun).
  split; [|split; [|reflexivity]].
  - apply (Hformat user_program user_template "'John' 'Doe'"
             (Schema_init (VDict user_fields)) 3);
      try reflexivity; discriminate.
  - apply Hrun. reflexivity.
Defined.

(** C4 as the specification states it fails across [set-schema]: the
    store is emptied, and the next record takes the index 0 again. *)
Lemma indices_restart_after_set_schema :
  ~ indices_count_up Program_init restart_run.
Proof. discriminate. Qed.

(** * Further properties *)

(** ** The datastore *)

Lemma list_getitem_app_front {A : Type} (l l' : list A) (i : Z) :
  0 <= i < Z.of_nat (List.length l) ->
  list_getitem (l ++ l')%list i = list_getitem l i.
Proof.
  intros H.
  destruct (list_getitem_front l i H) as (a & Hn & ->).
  apply (list_getitem_nth _ (Z.to_nat i)); [lia|].
  rewrite nth_error_app1; [exact Hn | lia].
Qed.

(** [save] then [load]: the index that [save] returns is the number of
    records before the call, and [load] at that index gives the record
    back. *)
Theorem save_load_roundtrip (self : Datastore) (data : Schema) :
  fst (snd (save self data)) = Z.of_nat (List.length (store self)) /\
  snd (snd (save self data)) = data /\
  load (fst (save self data)) (fst (snd (save self data))) = Ok (Some data).
Proof.
  unfold save. cbn [fst snd]. repeat split.
  - rewrite length_app. cbn [List.length]. lia.
  - unfold load. cbn [store]. gtb_case Hgt; [lia|].
    rewrite list_getitem_last. reflexivity.
Qed.

(** [save] leaves the records before it where they are: [load] at an
    index from 0 up to the last one gives the same record after the call
    as before. *)
Theorem save_keeps_records (self : Datastore) (data : Schema) (index : Z) :
  0 <= index < Z.of_nat (List.length (store self)) ->
  load (fst (save self data)) index = load self index /\
  exists r, load self index = Ok (Some r).
Proof.
  intros H. unfold save, load. cbn [fst store].
  rewrite length_app. cbn [List.length].
  gtb_case Hgt; [lia|]. gtb_case Hgt'; [lia|].
  rewrite (list_getitem_app_front _ _ _ H).
  destruct (list_getitem_front (store self) index H) as (r & _ & ->).
  split; [reflexivity | now exists r].
Qed.

Lemma save_keeps_records_witness :
  load (fst (save two_records age_schema)) 1 = load two_records 1 /\
  exists r, load two_records 1 = Ok (Some r).
Proof.
  apply (save_keeps_records two_records age_schema 1). simpl. lia.
Defined.

(** On a store that [clear] has emptied, [load] gives [None] at every
    index from 0 on and raises [IndexError] at every negative index. *)
Theorem load_after_clear (self : Datastore) (index : Z) :
  (0 <= index -> load (clear self) index = Ok None) /\
  (index < 0 -> load (clear self) index = Raise IndexError).
Proof.
  unfold load, clear. cbn [store List.length]. split; intros H.
  - gtb_case Hgt; [reflexivity | lia].
  - gtb_case Hgt; [lia|].
    rewrite list_getitem_below by (simpl; lia). reflexivity.
Qed.

Lemma load_after_clear_witness :
  load (clear two_records) 0 = Ok None /\
  load (clear two_records) (-1) = Raise IndexError.
Proof.
  split.
  - apply (load_after_clear two_records 0). lia.
  - apply (load_after_clear two_records (-1)). lia.
Defined.

(** ** [get] on the text of a number *)






(** ** The schema builder *)

Lemma int_of_str_raises (s : string) (e : exn) :
  int_of_str s = Raise e -> e = ValueError.
Proof.
  unfold int_of_str.
  destruct (match skip_space s with
            | String "-"%char r => (true, r)
            | String "+"%char r => (false, r)
            | _ => (false, skip_space s)
            end) as [neg s2].
  destruct (scan_digits 0 Nothing s2) as [[n rest]|]; [|congruence].
  destruct (skip_space rest); [discriminate | congruence].
Qed.

Lemma split_head (sep : ascii) (s : string) :
  exists n rest, split sep s = n :: rest.
Proof.
  pose proof (split_not_nil sep s) as H.
  destruct (split sep s) as [|n rest]; [now elim H | eauto].
Qed.

Lemma list_getitem_head {A : Type} (a : A) (l : list A) :
  list_getitem (a :: l) 0 = Ok a.
Proof. now apply (list_getitem_nth _ 0%nat). Qed.

Lemma list_getitem_beyond {A : Type} (l : list A) (n : nat) (i : Z) :
  i = Z.of_nat n -> nth_error l n = None ->
  list_getitem l i = Raise IndexError.
Proof. intros ->. apply list_getitem_none. Qed.

(** What [unpack_type] does on the parts of a spec: it returns exactly
    when the spec is well formed, and raises [IndexError] or [ValueError]
    otherwise; a field object it returns has the name of the spec and no
    value yet. *)
Lemma unpack_type_cases (spec : string) :
  list_getitem (split "|" spec) 0 = Ok (spec_name spec) /\
  ((exists f, unpack_type (split "|" spec) = Ok f /\
              well_formed_spec spec = true /\
              forall t, f = Some t ->
                        name t = spec_name spec /\ value t = VNone)
   \/
   (exists e, unpack_type (split "|" spec) = Raise e /\
              well_formed_spec spec = false /\
              (e = IndexError \/ e = ValueError))).
Proof.
  unfold spec_name, well_formed_spec, unpack_type.
  destruct (split_head "|" spec) as (n & rest & ->).
  rewrite list_getitem_head. split; [reflexivity|]. cbn [bind].
  destruct rest as [|key rest].
  - right. exists IndexError.
    rewrite (list_getitem_beyond [n] 1 1 eq_refl eq_refl). auto.
  - rewrite (list_getitem_nth (n :: key :: rest) 1 1 key eq_refl eq_refl).
    cbn [bind]. unfold key2type.
    destruct (String.eqb key "string").
    + destruct rest as [|param rest].
      * right. exists IndexError.
        rewrite (list_getitem_beyond [n; key] 2 2 eq_refl eq_refl). auto.
      * rewrite (list_getitem_nth (n :: key :: param :: rest) 2 2 param
                   eq_refl eq_refl).
        cbn [bind py_int].
        destruct (int_of_str param) as [z|e] eqn:Hint; cbn [bind].
        -- left. eexists. repeat split; intros; subst; injection H as <-;
             reflexivity.
        -- right. exists e. apply int_of_str_raises in Hint. auto.
    + left. destruct (String.eqb key "int"); eexists; repeat split;
        intros; subst; try discriminate; injection H as <-; reflexivity.
Qed.

Lemma collect_fields_step (t : string) (l : list string)
  (acc d : dict (option Type_)) :
  collect_fields (t :: l) acc = Ok d ->
  exists f,
    unpack_type (split "|" t) = Ok f /\ well_formed_spec t = true /\
    (forall x, f = Some x -> name x = spec_name t /\ value x = VNone) /\
    collect_fields l (dict_set acc (spec_name t) f) = Ok d.
Proof.
  cbn [collect_fields].
  destruct (unpack_type_cases t)
    as [-> [(f & -> & Hwf & Hf) | (e & -> & _ & _)]]; [|discriminate].
  cbn [bind]. intros H. exists f. auto.
Qed.

Lemma collect_fields_raises (l : list string) :
  forall acc e,
    collect_fields l acc = Raise e -> e = IndexError \/ e = ValueError.
Proof.
  induction l as [|t l IH]; intros acc e; [discriminate|].
  cbn [collect_fields].
  destruct (unpack_type_cases t)
    as [-> [(f & -> & _ & _) | (e' & -> & _ & He)]]; cbn [bind].
  - apply IH.
  - now intros [= <-].
Qed.

Lemma collect_fields_ok (l : list string) :
  forall acc d,
    collect_fields l acc = Ok d ->
    Forall (fun s => well_formed_spec s = true) l.
Proof.
  induction l as [|t l IH]; intros acc d H; [constructor|].
  destruct (collect_fields_step _ _ _ _ H) as (f & _ & Hwf & _ & Hrest).
  constructor; [exact Hwf | apply (IH _ _ Hrest)].
Qed.

(** The builder returns a schema exactly when every spec of the template
    has a kind keyword and, where the kind is [string], a maximal length
    that [int] accepts; otherwise it raises [IndexError] or
    [ValueError]. *)
Theorem builder_succeeds_iff (template : string) :
  ((exists s, create_schema_instance template = Ok s) <->
   Forall (fun s => well_formed_spec s = true) (split " " template)) /\
  (forall e, create_schema_instance template = Raise e ->
             e = IndexError \/ e = ValueError).
Proof.
  unfold create_schema_instance. split; [split|].
  - intros [s H].
    destruct (collect_fields (split " " template) []) as [d|e] eqn:Hc;
      [|discriminate].
    apply (collect_fields_ok _ _ _ Hc).
  - intros H. destruct (collect_fields_well_formed _ H []) as [d ->].
    eexists. reflexivity.
  - intros e.
    destruct (collect_fields (split " " template) []) as [d|e'] eqn:Hc;
      [discriminate|].
    intros [= <-]. apply (collect_fields_raises _ _ _ Hc).
Qed.

Lemma dict_get_none_iff {A : Type} (d : dict A) (k : string) :
  dict_get d k = None <-> ~ In k (map fst d).
Proof.
  induction d as [|[k' a] d IH]; simpl; [tauto|].
  destruct (String.eqb k' k) eqn:E.
  - apply String.eqb_eq in E. split; [discriminate | intros H; elim H; auto].
  - apply String.eqb_neq in E. rewrite IH. tauto.
Qed.

Lemma dict_set_keys {A : Type} (d : dict A) (k : string) (a : A) :
  map fst (dict_set d k a)
  = if dict_contains d k then map fst d else (map fst d ++ [k])%list.
Proof.
  unfold dict_contains. induction d as [|[k' a'] d IH]; simpl; [reflexivity|].
  destruct (String.eqb k' k) eqn:E; simpl; [reflexivity|].
  rewrite IH. now destruct (dict_get d k).
Qed.

Lemma dict_set_in {A : Type} (d : dict A) (k k' : string) (a a' : A) :
  In (k', a') (dict_set d k a) -> (k' = k /\ a' = a) \/ In (k', a') d.
Proof.
  induction d as [|[k0 a0] d IH]; simpl.
  - intros [[= <- <-]|[]]. now left.
  - destruct (String.eqb k0 k) eqn:E; intros [H|H].
    + injection H as <- <-. apply String.eqb_eq in E. now left.
    + right. now right.
    + right. now left.
    + destruct (IH H) as [?|?]; [now left | right; now right].
Qed.

Lemma dict_set_nodup {A : Type} (d : dict A) (k : string) (a : A) :
  NoDup (map fst d) -> NoDup (map fst (dict_set d k a)).
Proof.
  intros H. rewrite dict_set_keys. unfold dict_contains.
  destruct (dict_get d k) eqn:E; [exact H|].
  apply dict_get_none_iff in E.
  apply NoDup_app; [exact H | repeat constructor; intros [] |].
  intros x Hx [<-|[]]. contradiction.
Qed.

Lemma dict_set_keys_iff {A : Type} (d : dict A) (k k' : string) (a : A) :
  In k' (map fst (dict_set d k a)) <-> k' = k \/ In k' (map fst d).
Proof.
  rewrite dict_set_keys. unfold dict_contains.
  destruct (dict_get d k) eqn:E.
  - assert (In k (map fst d)).
    { destruct (in_dec string_dec k (map fst d)) as [?|Hn]; [assumption|].
      apply dict_get_none_iff in Hn. congruence. }
    split; [auto | intros [->|?]; assumption].
  - rewrite in_app_iff. simpl. intuition congruence.
Qed.

(** The fields that the loop of the builder leaves: their names are the
    names it started with and the names of the specs, without repetition;
    the field objects it adds have the name of their spec and no value. *)
Lemma collect_fields_inv (l : list string) :
  forall acc d,
    collect_fields l acc = Ok d ->
    (forall k, In k (map fst d) <->
               In k (map fst acc) \/ In k (map spec_name l)) /\
    (NoDup (map fst acc) -> NoDup (map fst d)) /\
    ((forall k t, In (k, Some t) acc -> name t = k /\ value t = VNone) ->
     forall k t, In (k, Some t) d -> name t = k /\ value t = VNone) /\
    (List.length acc <= List.length d)%nat.
Proof.
  induction l as [|t l IH]; intros acc d H.
  - injection H as <-. simpl.
    split; [intros k; tauto|]. split; [auto|]. split; [auto | lia].
  - destruct (collect_fields_step _ _ _ _ H) as (f & _ & _ & Hf & Hrest).
    destruct (IH _ _ Hrest) as (Hkeys & Hnd & Hfresh & Hlen).
    split; [|split; [|split]].
    + intros k. rewrite Hkeys, dict_set_keys_iff. simpl.
      intuition congruence.
    + intros Hacc. apply Hnd. now apply dict_set_nodup.
    + intros Hacc. apply Hfresh.
      intros k0 t0 Hin. apply dict_set_in in Hin as [[-> Heq]|Hin].
      * symmetry in Heq. apply (Hf _ Heq).
      * apply (Hacc _ _ Hin).
    + etransitivity; [|exact Hlen].
      rewrite <- (length_map fst), <- (length_map fst (dict_set _ _ _)).
      rewrite dict_set_keys. destruct (dict_contains acc (spec_name t));
        [lia | rewrite length_app; lia].
Qed.

Lemma create_schema_instance_inv (template : string) (s : Schema) :
  create_schema_instance template = Ok s ->
  exists d,
    s = Schema_init (VDict d) /\
    collect_fields (split " " template) [] = Ok d.
Proof.
  unfold create_schema_instance.
  destruct (collect_fields (split " " template) []) as [d|e];
    [|discriminate].
  intros [= <-]. now exists d.
Qed.

(** A schema that the builder returns has at least one field, no name
    twice, nothing but its fields as instance state, and field objects that
    carry the name they are stored under and no value yet. *)
Theorem built_schema_invariant (template : string) (s : Schema) :
  create_schema_instance template = Ok s ->
  exists d,
    s = Schema_init (VDict d) /\ d <> [] /\ NoDup (map fst d) /\
    forall k t, In (k, Some t) d -> name t = k /\ value t = VNone.
Proof.
  intros H. destruct (create_schema_instance_inv _ _ H) as (d & -> & Hc).
  destruct (collect_fields_inv _ _ _ Hc) as (Hkeys & Hnd & Hfresh & _).
  exists d. split; [reflexivity|]. split; [|split].
  - destruct (split_head " " template) as (n & rest & Hs).
    rewrite Hs in Hkeys. intros ->.
    apply (proj2 (Hkeys (spec_name n))). right. now left.
  - apply Hnd. constructor.
  - apply Hfresh. intros k t [].
Qed.

Lemma built_schema_invariant_witness :
  exists d,
    Schema_init (VDict user_fields) = Schema_init (VDict d) /\ d <> [] /\
    NoDup (map fst d) /\
    forall k t, In (k, Some t) d -> name t = k /\ value t = VNone.
Proof.
  apply (built_schema_invariant user_template). reflexivity.
Defined.

(** The names of the fields of a built schema are the names of the specs
    of the template, and a name holds what its last spec is unpacked to:
    a later spec of the same name replaces an earlier one. *)
Theorem builder_last_spec_wins (template : string) (d : dict (option Type_)) :
  create_schema_instance template = Ok (Schema_init (VDict d)) ->
  (forall k, In k (map fst d) <->
             In k (map spec_name (split " " template))) /\
  (forall pre spec post,
     split " " template = (pre ++ spec :: post)%list ->
     (forall s, In s post -> spec_name s <> spec_name spec) ->
     exists f, unpack_type (split "|" spec) = Ok f /\
               dict_get d (spec_name spec) = Some f).
Proof.
  intros H. destruct (create_schema_instance_inv _ _ H) as (d' & [= <-] & Hc).
  split.
  - intros k. destruct (collect_fields_inv _ _ _ Hc) as (Hkeys & _).
    rewrite Hkeys. simpl. tauto.
  - intros pre spec post Hsplit Hlater.
    rewrite Hsplit, collect_fields_app in Hc.
    destruct (collect_fields pre []) as [d1|e]; [|discriminate].
    cbn [bind] in Hc.
    destruct (collect_fields_step _ _ _ _ Hc) as (f & Hf & _ & _ & Hrest).
    exists f. split; [exact Hf|].
    rewrite (collect_fields_keeps post (spec_name spec) Hlater _ _ Hrest).
    apply dict_get_set_same.
Qed.

Lemma builder_last_spec_wins_witness :
  exists f, unpack_type (split "|" "a|string|5") = Ok f /\
            dict_get [("a", Some (StringType "a" 5)); ("b", Some (IntType "b"))]
              (spec_name "a|string|5") = Some f.
Proof.
  destruct (builder_last_spec_wins "a|int b|int a|string|5"
              [("a", Some (StringType "a" 5)); ("b", Some (IntType "b"))]
              eq_refl) as [_ H].
  apply (H ["a|int"; "b|int"] "a|string|5" [] eq_refl). intros s [].
Defined.

(** The number of fields of a built schema is at least 1 and at most the
    number of specs; it is the number of specs exactly when no two specs
    have the same name. *)
Theorem builder_field_count (template : string) (s : Schema) :
  create_schema_instance template = Ok s ->
  exists m : nat,
    fieldlen s = Ok (Z.of_nat m) /\
    (1 <= m <= List.length (split " " template))%nat /\
    (m = List.length (split " " template) <->
     NoDup (map spec_name (split " " template))).
Proof.
  intros H. destruct (create_schema_instance_inv _ _ H) as (d & -> & Hc).
  destruct (collect_fields_inv _ _ _ Hc) as (Hkeys & Hnd & _ & _).
  specialize (Hnd (NoDup_nil _)).
  exists (List.length d). split; [reflexivity|].
  set (names := map spec_name (split " " template)) in *.
  assert (Hincl : incl (map fst d) names)
    by (intros k Hk; apply Hkeys in Hk as [[]|Hk]; exact Hk).
  assert (Hincl' : incl names (map fst d))
    by (intros k Hk; apply Hkeys; now right).
  assert (Hle : (List.length d <= List.length names)%nat)
    by (rewrite <- (length_map fst d); now apply NoDup_incl_length).
  assert (Hspecs : List.length names = List.length (split " " template))
    by apply length_map.
  split; [split|split].
  - destruct (split_head " " template) as (n & rest & Hs).
    assert (In (spec_name n) (map fst d)) as Hin
      by (apply Hincl'; unfold names; rewrite Hs; now left).
    destruct d; [destruct Hin | simpl; lia].
  - lia.
  - intros Heq.
    apply (NoDup_incl_NoDup Hnd); [rewrite length_map; lia | exact Hincl].
  - intros Hn. apply (NoDup_incl_length Hn) in Hincl'.
    rewrite length_map in Hincl'. lia.
Qed.

Lemma builder_field_count_witness :
  exists m : nat,
    fieldlen (Schema_init (VDict [("a", Some (IntType "a"))]))
    = Ok (Z.of_nat m) /\
    (1 <= m <= List.length (split " " "a|string|5 a|int"))%nat /\
    (m = List.length (split " " "a|string|5 a|int") <->
     NoDup (map spec_name (split " " "a|string|5 a|int"))).
Proof.
  apply (builder_field_count "a|string|5 a|int"). reflexivity.
Defined.

Lemma builder_succeeds_iff_witness :
  exists s, create_schema_instance user_template = Ok s.
Proof.
  apply (proj1 (builder_succeeds_iff user_template)).
  change (split " " user_template)
    with ["firstname|string|255"; "lastname|string|255"; "age|int"].
  repeat constructor.
Defined.

(** ** The fields of a schema keep their names and classes *)

Lemma shape_dict (d : dict (option Type_)) :
  shape (VDict d) = VDict (map erase d).
Proof. reflexivity. Qed.

Lemma assign_erase (d : dict (option Type_)) :
  forall values, map erase (fst (assign d values)) = map erase d.
Proof.
  induction d as [|[k f] d IH]; intros values; [now destruct values|].
  destruct values as [|v values]; [reflexivity|].
  cbn [assign]. destruct f as [t|]; cbn [entry_set_value]; [|reflexivity].
  specialize (IH values). destruct (assign d values) as [d'' r].
  cbn [fst map] in *. now rewrite IH.
Qed.

Lemma dict_set_erase (d : dict (option Type_)) (key : string)
  (f : option Type_) (t : Type_) (v : pyval) :
  dict_get d key = Some f -> entry_set_value f v = Ok t ->
  map erase (dict_set d key (Some t)) = map erase d.
Proof.
  intros Hget Hset. destruct f as [t0|]; [|discriminate].
  injection Hset as <-.
  induction d as [|[k0 f0] d IH]; [discriminate|].
  simpl in *. destruct (String.eqb k0 key); simpl.
  - injection Hget as ->. reflexivity.
  - now rewrite IH.
Qed.

(** [set_values] changes values only: whatever the values and whether it
    returns or raises, the fields keep their names, their order and their
    classes, and the rest of the instance state is as before. *)
Theorem set_values_keeps_shape (self : Schema)
  (values : option (list pyval)) :
  shape (fields (fst (set_values self values))) = shape (fields self) /\
  attrs (fst (set_values self values)) = attrs self.
Proof.
  unfold set_values. destruct (truthy_list values); [|split; reflexivity].
  destruct (fields self) as [| b | z | f | s | c o | d] eqn:Hf;
    cbn [py_items fst]; rewrite ?Hf; try (split; reflexivity).
  cbv zeta.
  pose proof (assign_erase d (match values with Some l => l | None => [] end))
    as He.
  destruct (assign d _) as [d' r]. cbn [fst fields attrs] in *.
  rewrite !shape_dict, He. split; reflexivity.
Qed.

(** ** Keyword arguments *)







(** ** Writing and reading a field *)

(** A write to a declared field and a read of it: when the name does not
    occur in the word [fields] and is neither instance state nor a name of
    the class, the read gives the value just written, the other fields
    read as before, and the names and classes of the fields are kept. *)
Theorem Schema_setattr_then_read (inherited : string -> bool) (self : Schema)
  (d : dict (option Type_)) (key : string) (t : Type_) (v : pyval) :
  fields self = VDict d ->
  dict_get d key = Some (Some t) ->
  str_contains "fields" key = false ->
  instance_attr self key = None ->
  on_class inherited key = false ->
  exists self',
    Schema_setattr self key v = Ok self' /\
    read_attr inherited self' key = Ok (Object v) /\
    (forall k, k <> key -> Schema_getattr self' k = Schema_getattr self k) /\
    shape (fields self') = shape (fields self).
Proof.
  intros Hd Ht Hsub Hinst Hcls.
  exists {| fields := VDict (dict_set d key (Some (set_value t v)));
            attrs := attrs self |}.
  split; [|split; [|split]].
  - unfold Schema_setattr. rewrite Hsub, Hd.
    cbn [py_contains py_getitem bind]. rewrite dict_contains_get, Ht.
    reflexivity.
  - unfold read_attr, instance_attr in *. cbn [fields attrs].
    destruct (String.eqb key "fields"); [discriminate|].
    rewrite Hinst, Hcls. unfold Schema_getattr.
    cbn [fields py_contains py_getitem bind].
    rewrite dict_contains_get, dict_get_set_same. reflexivity.
  - intros k Hk. unfold Schema_getattr. rewrite Hd.
    cbn [fields py_contains py_getitem bind].
    rewrite !dict_contains_get, dict_get_set_other by congruence.
    reflexivity.
  - cbn [fields]. rewrite Hd, !shape_dict. f_equal.
    apply (dict_set_erase d key (Some t) _ v Ht eq_refl).
Qed.

Lemma Schema_setattr_then_read_witness :
  exists self',
    Schema_setattr user_schema "age" (VInt 30) = Ok self' /\
    read_attr no_inherited self' "age" = Ok (Object (VInt 30)) /\
    (forall k, k <> "age" ->
               Schema_getattr self' k = Schema_getattr user_schema k) /\
    shape (fields self') = shape (fields user_schema).
Proof.
  apply (Schema_setattr_then_read no_inherited user_schema user_fields "age"
           (IntType "age") (VInt 30)); reflexivity.
Defined.

(** ** The tokens of a line *)

Lemma split_cons (sep c : ascii) (s : string) :
  Ascii.eqb c sep = false ->
  exists p ps,
    split sep s = p :: ps /\ split sep (String c s) = String c p :: ps.
Proof.
  intros H. destruct (split_head sep s) as (p & ps & Hs).
  exists p, ps. split; [exact Hs|]. cbn [split]. now rewrite H, Hs.
Qed.

(** The tokens of [split]: one more than the separators of the text; no
    token contains the separator; joined by the separator they give the
    text back. *)
Theorem split_tokens (sep : ascii) (s : string) :
  List.length (split sep s) = S (count_char sep s) /\
  (forall tok, In tok (split sep s) -> count_char sep tok = 0%nat) /\
  String.concat (String sep EmptyString) (split sep s) = s.
Proof.
  induction s as [|c s (IHlen & IHtok & IHjoin)].
  - repeat split. intros tok [<-|[]]. reflexivity.
  - destruct (Ascii.eqb c sep) eqn:E.
    + cbn [split count_char]. rewrite E. repeat split.
      * simpl. now rewrite IHlen.
      * intros tok [<-|Hin]; [reflexivity | now apply IHtok].
      * apply Ascii.eqb_eq in E. subst c.
        destruct (split_head sep s) as (p & ps & Hs). rewrite Hs in *.
        change (String sep (String.concat (String sep EmptyString) (p :: ps))
                = String sep s).
        now rewrite IHjoin.
    + destruct (split_cons sep c s E) as (p & ps & Hs & ->).
      rewrite Hs in *. cbn [count_char]. rewrite E. repeat split.
      * simpl in *. lia.
      * intros tok [<-|Hin].
        -- cbn [count_char]. rewrite E. apply IHtok. now left.
        -- apply IHtok. now right.
      * destruct ps as [|q ps].
        -- cbn [String.concat] in *. now rewrite IHjoin.
        -- change (String c (String.concat (String sep EmptyString)
                               (p :: q :: ps)) = String c s).
           now rewrite IHjoin.
Qed.

(** [deserialize] counts the spaces of the line: when one more than their
    number differs from the number of fields, it raises its assertion and
    leaves the schema as it is. *)
Theorem deserialize_counts_spaces (schema : Schema) (data : string) (m : Z) :
  fieldlen schema = Ok m ->
  Z.of_nat (S (count_char " " data)) <> m ->
  deserialize schema data
  = (schema,
     Raise (AssertionError
              [Lit "Incorrect number of fields. Expected "; Fmt (VInt m);
               Lit ", Actual ";
               Fmt (VInt (Z.of_nat (S (count_char " " data))))])).
Proof.
  intros Hm Hne. unfold deserialize. rewrite Hm.
  destruct (split_tokens " " data) as (-> & _ & _).
  apply Z.eqb_neq in Hne. now rewrite Hne.
Qed.

Lemma deserialize_counts_spaces_witness :
  deserialize user_schema "'John' 'Doe' 30 "
  = (user_schema,
     Raise (AssertionError
              [Lit "Incorrect number of fields. Expected "; Fmt (VInt 3);
               Lit ", Actual "; Fmt (VInt 4)])).
Proof.
  apply (deserialize_counts_spaces user_schema "'John' 'Doe' 30 " 3).
  - reflexivity.
  - simpl. lia.
Defined.

(** ** What [add] stores *)

Lemma assign_ok_objects (d : dict (option Type_)) :
  forall values d' u,
    assign d values = (d', Ok u) ->
    List.length values = List.length d ->
    all_field_objects d.
Proof.
  induction d as [|[k f] d IH]; intros values d' u H Hlen.
  - intros k f [].
  - destruct values as [|v values]; [discriminate|].
    injection Hlen as Hlen. cbn [assign] in H.
    destruct f as [t|]; cbn [entry_set_value] in H; [|discriminate].
    destruct (assign d values) as [d'' r] eqn:Ha.
    injection H as _ ->.
    intros k0 f0 [[= <- <-]|Hin]; [discriminate|].
    apply (IH values d'' u Ha Hlen k0 f0 Hin).
Qed.

Lemma deserialize_ok_inv (d : dict (option Type_)) (data : string)
  (record : Schema) (u : unit) :
  deserialize (Schema_init (VDict d)) data = (record, Ok u) ->
  List.length (split " " data) = List.length d /\
  all_field_objects d /\
  record = Schema_init (VDict (positional d (map VStr (split " " data)))) /\
  validate_fields (positional d (map VStr (split " " data))) = Ok tt.
Proof.
  unfold deserialize, fieldlen. cbn [Schema_init fields py_len].
  destruct (_ =? _) eqn:Hn; [|discriminate].
  apply Z.eqb_eq in Hn. apply Nat2Z.inj in Hn.
  unfold set_values.
  pose proof (split_not_nil " " data) as Hne.
  destruct (split " " data) as [|tok tokens]; [now elim Hne|].
  unfold Schema_init. cbn [map truthy_list fields py_items attrs]. cbv zeta.
  destruct (assign d (VStr tok :: map VStr tokens)) as [d' r] eqn:Ha.
  destruct r as [[]|e]; [|discriminate].
  assert (Hobj : all_field_objects d).
  { apply (assign_ok_objects d _ _ _ Ha). cbn [List.length] in *.
    now rewrite length_map. }
  rewrite (assign_positional d _ Hobj) in Ha. injection Ha as <-.
  cbn [bind]. unfold build, Schema_validate. cbn [fields py_items bind].
  destruct (validate_fields _) as [[]|e] eqn:Hv; [|discriminate].
  intros [= <-]. auto.
Qed.

Lemma add_saved_inv (p p' : Program) (data : string) (out : list string)
  (i : Z) (r : Schema) :
  add p data = (p', out, Ok (RSaved i r)) ->
  exists template d u,
    current_schema p = Some template /\
    create_schema_instance template = Ok (Schema_init (VDict d)) /\
    deserialize (Schema_init (VDict d)) data = (r, Ok u) /\
    p' = {| datastore := {| store := (store (datastore p) ++ [r])%list |};
            current_schema := current_schema p |} /\
    i = Z.of_nat (List.length (store (datastore p))) /\
    out = [].
Proof.
  unfold add. destruct (no_schema (current_schema p)) eqn:Hno; [discriminate|].
  destruct (current_schema p) as [template|] eqn:Hcur; [|discriminate].
  destruct (create_schema_instance template) as [schema|e] eqn:Hb;
    [|discriminate].
  destruct (create_schema_instance_inv _ _ Hb) as (d & -> & _).
  destruct (deserialize (Schema_init (VDict d)) data) as [record [u|e]] eqn:Hd;
    [|discriminate].
  unfold save. cbn [fst snd]. intros [= <- <- <- <-].
  exists template, d, u. repeat split; try assumption.
  rewrite length_app. simpl. lia.
Qed.


(** Whenever [add] saves a record, the record is a schema built from the
    current template whose field values are the tokens of the line, as
    texts and none with a space in it; it passes validation, and [get] at
    the index returned gives it back. *)
Theorem add_saves_tokens (p p' : Program) (data : string)
  (out : list string) (i : Z) (r : Schema) :
  add p data = (p', out, Ok (RSaved i r)) ->
  exists template d d',
    current_schema p = Some template /\
    create_schema_instance template = Ok (Schema_init (VDict d)) /\
    r = Schema_init (VDict d') /\
    map fst d' = map fst d /\
    record_values d' = map (fun tok => Some (VStr tok)) (split " " data) /\
    (forall tok, In tok (split " " data) -> count_char " " tok = 0%nat) /\
    record_ok r /\
    get p' (VInt i) = (p', [], Ok (RRecord r)).
Proof.
  intros H.
  destruct (add_saved_inv _ _ _ _ _ _ H)
    as (template & d & u & Hcur & Hb & Hd & -> & -> & _).
  destruct (deserialize_ok_inv _ _ _ _ Hd) as (Hlen & Hobj & -> & Hv).
  destruct (positional_tokens d (split " " data) Hlen Hobj) as [Hn Hvals].
  exists template, d, (positional d (map VStr (split " " data))).
  split; [exact Hcur|]. split; [exact Hb|]. split; [reflexivity|].
  split; [exact Hn|]. split; [exact Hvals|].
  split; [apply (split_tokens " " data)|]. split.
  - exists (positional d (map VStr (split " " data))).
    split; [reflexivity|]. split; [|split; [|exact Hv]].
    + intros Hnil. apply (f_equal (@List.length _)) in Hnil.
      rewrite positional_length, <- Hlen in Hnil.
      pose proof (split_not_nil " " data).
      destruct (split " " data); [congruence | discriminate].
    + apply positional_field_objects. exact Hobj.
  - unfold get, load. cbn [py_int bind datastore store].
    rewrite length_app. cbn [List.length].
    gtb_case Hgt; [lia|].
    replace (Z.of_nat (List.length (store (datastore p))))
      with (Z.of_nat (List.length (store (datastore p) ++ [
              Schema_init (VDict (positional d (map VStr (split " " data))))
            ])%list) - 1)
      by (rewrite length_app; simpl; lia).
    rewrite list_getitem_last. reflexivity.
Qed.

Lemma add_saves_tokens_witness :
  exists template d d',
    current_schema int_program = Some template /\
    create_schema_instance template = Ok (Schema_init (VDict d)) /\
    Schema_init (VDict [("a", Some (set_value (IntType "a") (VStr "42")))])
    = Schema_init (VDict d') /\
    map fst d' = map fst d /\
    record_values d' = map (fun tok => Some (VStr tok)) (split " " "42") /\
    (forall tok, In tok (split " " "42") -> count_char " " tok = 0%nat) /\
    record_ok
      (Schema_init (VDict [("a", Some (set_value (IntType "a") (VStr "42")))]))
    /\
    get (fst (fst (add int_program "42"))) (VInt 0)
    = (fst (fst (add int_program "42")), [],
       Ok (RRecord
             (Schema_init
                (VDict [("a", Some (set_value (IntType "a") (VStr "42")))])))).
Proof.
  apply (add_saves_tokens int_program _ "42" []). reflexivity.
Defined.

(** ** The store over a run *)

Lemma add_saved_record_ok (p p' : Program) (data : string)
  (out : list string) (i : Z) (r : Schema) :
  add p data = (p', out, Ok (RSaved i r)) -> record_ok r.
Proof.
  intros H.
  destruct (add_saved_inv _ _ _ _ _ _ H) as (template & d & u & _ & _ & Hd & _).
  destruct (deserialize_ok_inv _ _ _ _ Hd) as (Hlen & Hobj & -> & Hv).
  exists (positional d (map VStr (split " " data))).
  split; [reflexivity|]. split; [|split; [|exact Hv]].
  - intros Hnil. apply (f_equal (@List.length _)) in Hnil.
    rewrite positional_length, <- Hlen in Hnil.
    pose proof (split_not_nil " " data).
    destruct (split " " data); [congruence | discriminate].
  - apply positional_field_objects. exact Hobj.
Qed.

(** What a command does to the store: [set-schema] empties it, and the
    other commands append one record that is well made, or nothing. *)
Lemma call_store (p : Program) (c : command) :
  (is_set_schema c = true /\ store (datastore (fst (fst (call p c)))) = []) \/
  (is_set_schema c = false /\
   current_schema (fst (fst (call p c))) = current_schema p /\
   ((store (datastore (fst (fst (call p c)))) = store (datastore p) /\
     saved_indices [snd (call p c)] = []) \/
    (exists i r,
       store (datastore (fst (fst (call p c))))
       = (store (datastore p) ++ [r])%list /\
       snd (call p c) = Ok (RSaved i r) /\ record_ok r))).
Proof.
  destruct c as [arg | arg | arg]; cbn [call is_set_schema].
  - left. split; reflexivity.
  - right. split; [reflexivity|].
    destruct (add_cases p arg) as [(r & Hadd & _) | (out & r & Hadd & Hr)].
    + pose proof (add_saved_record_ok _ _ _ _ _ _ Hadd) as Hok.
      rewrite Hadd. cbn [fst snd datastore store current_schema].
      split; [reflexivity|]. right. eauto.
    + rewrite Hadd. cbn [fst snd]. split; [reflexivity|]. left.
      split; [reflexivity|]. destruct Hr as [-> | [e ->]]; reflexivity.
  - right. split; [reflexivity|].
    destruct (get_saves_nothing p (VStr arg)) as (r & Hget & Hr).
    rewrite Hget. cbn [fst snd]. split; [reflexivity|]. left. auto.
Qed.



(** Between two [set-schema] commands the store only grows at its end:
    the records it had stay at their places, one record is appended for
    each index returned, and the template is not touched. *)
Theorem run_appends (cs : list command) :
  forall p,
    forallb (fun c => negb (is_set_schema c)) cs = true ->
    current_schema (fst (run p cs)) = current_schema p /\
    exists appended,
      store (datastore (fst (run p cs)))
      = (store (datastore p) ++ appended)%list /\
      List.length appended = List.length (saved_indices (snd (run p cs))) /\
      forall index,
        0 <= index < Z.of_nat (List.length (store (datastore p))) ->
        load (datastore (fst (run p cs))) index = load (datastore p) index.
Proof.
  assert (Hload : forall (a b : Datastore) l' index,
             store a = (store b ++ l')%list ->
             0 <= index < Z.of_nat (List.length (store b)) ->
             load a index = load b index).
  { intros a b l' index Hab H. unfold load. rewrite Hab, length_app.
    gtb_case Hgt; [lia|]. gtb_case Hgt'; [lia|].
    now rewrite list_getitem_app_front. }
  induction cs as [|c cs IH]; intros p Hcs.
  - split; [reflexivity|]. exists []. cbn [run fst snd].
    rewrite app_nil_r. repeat split.
  - cbn [forallb] in Hcs. apply andb_true_iff in Hcs as [Hc Hcs].
    rewrite run_cons. cbn [fst snd]. rewrite saved_indices_cons.
    destruct (IH (fst (fst (call p c))) Hcs) as (Hcur & app & Hst & Hlen & _).
    destruct (call_store p c)
      as [[Hset _] | (_ & Hcur' & [[Hsame Hnone] | (i & r & Hadd & Hr & _)])].
    + rewrite Hset in Hc. discriminate.
    + split; [congruence|]. exists app. rewrite Hsame in Hst.
      rewrite Hnone. split; [exact Hst|]. split; [exact Hlen|].
      intros index Hi. apply (Hload _ _ app _ Hst Hi).
    + split; [congruence|]. exists (r :: app).
      rewrite Hadd, <- app_assoc in Hst. rewrite Hr.
      split; [exact Hst|]. split; [simpl; now rewrite Hlen|].
      intros index Hi. apply (Hload _ _ (r :: app) _ Hst Hi).
Qed.

Lemma run_appends_witness :
  current_schema (fst (run int_program [Cadd "1"; Cget "0"; Cadd "x"]))
  = current_schema int_program /\
  exists appended,
    store (datastore (fst (run int_program [Cadd "1"; Cget "0"; Cadd "x"])))
    = (store (datastore int_program) ++ appended)%list /\
    List.length appended
    = List.length
        (saved_indices (snd (run int_program [Cadd "1"; Cget "0"; Cadd "x"])))
    /\
    forall index,
      0 <= index < Z.of_nat (List.length (store (datastore int_program))) ->
      load (datastore (fst (run int_program [Cadd "1"; Cget "0"; Cadd "x"])))
        index
      = load (datastore int_program) index.
Proof.
  apply (run_appends [Cadd "1"; Cget "0"; Cadd "x"] int_program). reflexivity.
Defined.

(** ** The bounds of a string field *)

(** A value that a string field accepts has at least one character and
    at most [max_len]: a field whose maximal length is below 1 accepts
    nothing, and a lone quote is accepted by every other field, as it is
    both the start and the end of the text. *)
Theorem StringType_length_bounds (nm : string) (max_len : Z) (v : pyval) :
  (validate (set_value (StringType nm max_len) v) = Ok tt ->
   exists s, v = VStr s /\ 1 <= len s <= max_len) /\
  (max_len < 1 -> validate (set_value (StringType nm max_len) v) <> Ok tt) /\
  (1 <= max_len ->
   validate (set_value (StringType nm max_len) (VStr "'")) = Ok tt).
Proof.
  assert (Hb : validate (set_value (StringType nm max_len) v) = Ok tt ->
               exists s, v = VStr s /\ 1 <= len s <= max_len).
  { unfold validate, StringType_validate; simpl.
    destruct v as [| b | z | f | s | c o | d]; simpl; try discriminate.
    destruct (len s <=? max_len) eqn:Hlen; simpl; [|discriminate].
    apply Z.leb_le in Hlen.
    destruct (startswith "'" s) eqn:Hs; simpl; [|discriminate].
    intros _. exists s. split; [reflexivity|].
    apply startswith_quote_iff in Hs as [t ->].
    unfold len in *. simpl in *. lia. }
  split; [exact Hb|]. split.
  - intros Hm H. destruct (Hb H) as (s & _ & Hs). lia.
  - intros Hm. unfold validate, StringType_validate; simpl.
    change (len "'") with 1.
    destruct (1 <=? max_len) eqn:E; [reflexivity|].
    apply Z.leb_gt in E. lia.
Qed.

Lemma StringType_length_bounds_witness :
  validate (set_value (StringType "firstname" 0) (VStr "''")) <> Ok tt /\
  validate (set_value (StringType "firstname" 1) (VStr "'")) = Ok tt.
Proof.
  split.
  - apply (StringType_length_bounds "firstname" 0 (VStr "''")). lia.
  - apply (StringType_length_bounds "firstname" 1 VNone). lia.
Defined.

(** ** The lines of the command loop *)

Lemma lstrip_cases (s : string) :
  (lstrip s = "" /\ forall_chars isspace_char s = true) \/
  (exists c r, lstrip s = String c r /\ isspace_char c = false /\
               forall_chars isspace_char s = false).
Proof.
  induction s as [|c s IH]; [now left|].
  cbn [lstrip forall_chars]. destruct (isspace_char c) eqn:E.
  - destruct IH as [[H1 H2] | (c' & r & H1 & H2 & H3)].
    + left. now rewrite H1, H2.
    + right. exists c', r. now rewrite H1, H3.
  - right. exists c, s. auto.
Qed.

Lemma rstrip_head (c : ascii) (s : string) :
  isspace_char c = false ->
  exists r, rstrip (String c s) = String c r /\
            count_char " " r = count_char " " (rstrip s).
Proof.
  intros H. cbn [rstrip]. destruct (rstrip s) as [|c' r'].
  - rewrite H. now exists "".
  - now exists (String c' r').
Qed.

Lemma split1_word (sep : ascii) (s : string) :
  count_char sep (fst (split1 sep s)) = 0%nat /\
  (s <> "" -> (exists c r, s = String c r /\ Ascii.eqb c sep = false) ->
   fst (split1 sep s) <> "").
Proof.
  split.
  - induction s as [|c s IH]; [reflexivity|].
    cbn [split1]. destruct (Ascii.eqb c sep) eqn:E; [reflexivity|].
    destruct (split1 sep s) as [a b]. cbn [fst count_char] in *.
    now rewrite E, IH.
  - intros _ (c & r & -> & E). cbn [split1]. rewrite E.
    destruct (split1 sep r). discriminate.
Qed.

Lemma replace_char_count (a b c : ascii) (s : string) :
  a <> b ->
  count_char a (replace_char a b s) = 0%nat /\
  (count_char c s = 0%nat -> c <> b ->
   count_char c (replace_char a b s) = 0%nat) /\
  (s <> "" -> replace_char a b s <> "").
Proof.
  intros Hab. induction s as [|x s (IH1 & IH2 & _)];
    [repeat split; auto|].
  cbn [replace_char count_char]. split; [|split; [|discriminate]].
  - destruct (Ascii.eqb x a) eqn:E.
    + assert (Ascii.eqb b a = false) as ->
        by (apply Ascii.eqb_neq; congruence).
      exact IH1.
    + rewrite E. exact IH1.
  - intros Hc Hcb.
    destruct (Ascii.eqb x c) eqn:Exc; [discriminate|].
    simpl in Hc. destruct (Ascii.eqb x a).
    + assert (Ascii.eqb b c = false) as ->
        by (apply Ascii.eqb_neq; congruence).
      now apply IH2.
    + rewrite Exc. now apply IH2.
Qed.

(** The loop passes over a line exactly when the line is made of white
    space only; otherwise the command word it reads is not empty and has
    neither a space nor a hyphen in it. *)
Theorem parse_line_word (input : string) :
  (parse_line input = None <-> forall_chars isspace_char input = true) /\
  (forall cmd arg,
     parse_line input = Some (cmd, arg) ->
     cmd <> "" /\ count_char " " cmd = 0%nat /\ count_char "-" cmd = 0%nat).
Proof.
  unfold parse_line, strip.
  destruct (lstrip_cases input) as [[-> Hall] | (c & r & -> & Hc & Hall)].
  - cbn [rstrip]. split; [tauto | discriminate].
  - destruct (rstrip_head c r Hc) as (r' & -> & _). split.
    + rewrite Hall. destruct (split1 " " (String c r')).
      split; discriminate.
    + intros cmd arg.
      assert (Hsp : Ascii.eqb c " " = false)
        by (apply Ascii.eqb_neq; intros ->; discriminate).
      destruct (split1_word " " (String c r')) as [Hcount Hne].
      specialize (Hne ltac:(discriminate)
                    (ex_intro _ c (ex_intro _ r' (conj eq_refl Hsp)))).
      destruct (split1 " " (String c r')) as [word rest].
      cbn [fst] in *. intros [= <- _].
      destruct (replace_char_count "-" "_" " " word ltac:(discriminate))
        as (H1 & H2 & H3).
      split; [now apply H3|]. split; [apply H2; [exact Hcount | discriminate]
                                     | exact H1].
Qed.

Lemma rstrip_app (a b : string) :
  rstrip (a ++ b)
  = match rstrip b with
    | EmptyString => rstrip a
    | r => a ++ r
    end.
Proof.
  induction a as [|c a IH];
    [change ("" ++ b) with b; now destruct (rstrip b)|].
  change (String c a ++ b) with (String c (a ++ b)).
  cbn [rstrip]. rewrite IH. destruct (rstrip b) as [|x r]; [reflexivity|].
  now destruct a.
Qed.

Lemma rstrip_word (s : string) :
  forall_chars not_space s = true -> rstrip s = s.
Proof.
  induction s as [|c s IH]; [reflexivity|].
  cbn [forall_chars rstrip]. unfold not_space at 1.
  rewrite andb_true_iff, negb_true_iff. intros [Hc Hs].
  rewrite (IH Hs), Hc. now destruct s.
Qed.

Lemma word_no_space (s : string) :
  forall_chars not_space s = true -> count_char " " s = 0%nat.
Proof.
  induction s as [|c s IH]; [reflexivity|].
  cbn [forall_chars count_char]. rewrite andb_true_iff. intros [Hc Hs].
  rewrite (IH Hs). destruct (Ascii.eqb c " ") eqn:E; [|reflexivity].
  apply Ascii.eqb_eq in E. subst c. discriminate.
Qed.

Lemma split1_join (sep : ascii) (a b : string) :
  count_char sep a = 0%nat ->
  split1 sep a = (a, None) /\ split1 sep (a ++ String sep b) = (a, Some b).
Proof.
  induction a as [|c a IH]; intros H.
  - split; [reflexivity|]. simpl. now rewrite Ascii.eqb_refl.
  - cbn [count_char] in H. destruct (Ascii.eqb c sep) eqn:E; [discriminate|].
    destruct (IH H) as [H1 H2].
    change (String c a ++ String sep b) with (String c (a ++ String sep b)).
    cbn [split1]. now rewrite E, H1, H2.
Qed.

(** A command word and an argument joined by a space are read back by the
    loop, when the word has no white space and the argument does not end
    with white space: the word comes back with its hyphens turned into
    underscores and the argument as it is, so [set-schema] keeps a template
    that does not end with white space as it is typed. *)
Theorem parse_line_roundtrip (cmd arg : string) :
  cmd <> "" -> forall_chars not_space cmd = true -> rstrip arg = arg ->
  parse_line (cmd ++ " " ++ arg) = Some (replace_char "-" "_" cmd, arg) /\
  read_command (cmd ++ " " ++ arg)
  = command_of (replace_char "-" "_" cmd) arg.
Proof.
  intros Hne Hword Harg.
  assert (H : parse_line (cmd ++ " " ++ arg)
              = Some (replace_char "-" "_" cmd, arg)).
  { unfold parse_line, strip.
    assert (lstrip (cmd ++ " " ++ arg) = cmd ++ " " ++ arg) as ->.
    { destruct cmd as [|c cmd]; [now elim Hne|].
      cbn [forall_chars] in Hword. apply andb_true_iff in Hword as [Hc _].
      unfold not_space in Hc. apply negb_true_iff in Hc.
      change (String c cmd ++ " " ++ arg) with (String c (cmd ++ " " ++ arg)).
      cbn [lstrip]. now rewrite Hc. }
    rewrite rstrip_app.
    change (" " ++ arg) with (String " " arg). cbn [rstrip]. rewrite Harg.
    destruct (split1_join " " cmd arg (word_no_space cmd Hword)) as [H1 H2].
    destruct arg as [|x arg].
    - change (if isspace_char " " then "" else " ") with "".
      rewrite (rstrip_word cmd Hword), H1.
      destruct cmd; [now elim Hne | reflexivity].
    - rewrite H2. destruct cmd; [now elim Hne | reflexivity]. }
  split; [exact H|]. unfold read_command. now rewrite H.
Qed.

Lemma parse_line_roundtrip_witness :
  parse_line ("set-schema" ++ " " ++ "a|int b|string|5")
  = Some ("set_schema", "a|int b|string|5") /\
  read_command ("set-schema" ++ " " ++ "a|int b|string|5")
  = Some (Cset_schema "a|int b|string|5").
Proof.
  apply (parse_line_roundtrip "set-schema" "a|int b|string|5");
    [discriminate | reflexivity | reflexivity].
Defined.

(** ** A template with a gap *)

Lemma assign_gap (d : dict (option Type_)) :
  forall values k,
    List.length values = List.length d ->
    In (k, None) d ->
    snd (assign d values) = Raise (no_attribute VNone "set_value").
Proof.
  induction d as [|[k0 f] d IH]; intros values k Hlen Hin; [destruct Hin|].
  destruct values as [|v values]; [discriminate|].
  injection Hlen as Hlen. cbn [assign].
  destruct f as [t|]; cbn [entry_set_value]; [|reflexivity].
  destruct Hin as [[=]|Hin].
  specialize (IH values k Hlen Hin).
  destruct (assign d values) as [d'' r]. exact IH.
Qed.

(** A template in which a name is left without a field object cannot be
    used: every [add] raises, either the assertion on the number of fields
    or the [AttributeError] of the missing [set_value], and the program
    stays as it is. *)
Theorem add_fails_on_gap (p : Program) (template data k : string)
  (d : dict (option Type_)) :
  current_schema p = Some template ->
  create_schema_instance template = Ok (Schema_init (VDict d)) ->
  In (k, None) d ->
  exists e,
    add p data = (p, [], Raise e) /\
    (e = no_attribute VNone "set_value" \/
     e = AssertionError
           [Lit "Incorrect number of fields. Expected ";
            Fmt (VInt (Z.of_nat (List.length d)));
            Lit ", Actual ";
            Fmt (VInt (Z.of_nat (List.length (split " " data))))]).
Proof.
  intros Hcur Hb Hin. unfold add. rewrite Hcur.
  assert (no_schema (Some template) = false) as ->
    by (destruct template; [discriminate Hb | reflexivity]).
  rewrite Hb. unfold deserialize, fieldlen.
  unfold Schema_init at 1 2. cbn [fields py_len].
  destruct (_ =? _) eqn:Hn.
  - apply Z.eqb_eq, Nat2Z.inj in Hn. unfold set_values.
    pose proof (split_not_nil " " data) as Hne.
    destruct (split " " data) as [|tok tokens] eqn:Hs; [now elim Hne|].
    unfold Schema_init. cbn [map truthy_list fields py_items attrs]. cbv zeta.
    pose proof (assign_gap d (map VStr (tok :: tokens)) k
                  ltac:(now rewrite length_map) Hin) as Ha.
    cbn [map] in Ha.
    destruct (assign d (VStr tok :: map VStr tokens)) as [d' r].
    cbn [snd] in Ha. subst r. cbn [bind]. eexists. split; [reflexivity|].
    now left.
  - eexists. split; [reflexivity|]. now right.
Qed.

Lemma add_fails_on_gap_witness :
  exists e,
    add (set_schema Program_init "a|foo b|int") "1 2"
    = (set_schema Program_init "a|foo b|int", [], Raise e) /\
    (e = no_attribute VNone "set_value" \/
     e = AssertionError
           [Lit "Incorrect number of fields. Expected ";
            Fmt (VInt (Z.of_nat
                         (List.length
                            [("a", None); ("b", Some (IntType "b"))])));
            Lit ", Actual ";
            Fmt (VInt (Z.of_nat (List.length (split " " "1 2"))))]).
Proof.
  apply (add_fails_on_gap (set_schema Program_init "a|foo b|int")
           "a|foo b|int" "1 2" "a"
           [("a", None); ("b", Some (IntType "b"))]);
    [reflexivity | reflexivity | now left].
Defined.

Lemma parse_line_word_witness :
  parse_line "   " = None /\
  ("get" <> "" /\ count_char " " "get" = 0%nat /\ count_char "-" "get" = 0%nat).
Proof.
  split.
  - apply (proj1 (parse_line_word "   ")). reflexivity.
  - apply (proj2 (parse_line_word "  get 0 ") "get" "0"). reflexivity.
Defined.
